(** * mysql_backup_to_s3: a shallow embedding of [main.py]

    The script dumps every configured MySQL database to a file, zips the
    dump, uploads the archive to an S3 bucket and finally prunes remote
    backups older than fourteen days.  This development embeds the four
    functions of [main.py] ([dump_database], [upload_to_s3],
    [delete_old_backups], [perform_backup]) together with the Python
    library calls they rely on, and proves the properties of the
    specification about them.

    Layout:
    - [PyStr]     the [str] methods and [os.path] functions used;
    - [Datetime]  naive datetimes, [strftime]/[strptime] for
                  [LOCAL_DATE_FORMAT], day arithmetic and comparison;
    - [Backup]    configuration, the world (filesystem, bucket, log,
                  call trace), the exception monad and the four functions;
    - [Observe]   what is observed of a run, and the statements discussed;
    - [Examples]  sample configurations, environments and worlds;
    - [PyStrFacts], [DatetimeFacts], [BackupFacts]: lemmas;
    - the properties of the specification. *)

From Stdlib Require Import ZArith Ascii String List Bool Lia DecimalString.
From stdpp Require Import gmap strings list fin_maps sorting.

Local Open Scope string_scope.
Local Open Scope Z_scope.

(* ===================================================================== *)
(** ** Python strings and POSIX paths *)
(* ===================================================================== *)

Module PyStr.

(** Python [str] values are modelled by [string]: sequences of characters
    with code points below 256. *)

(** [s.startswith(p)] *)
Fixpoint startswith (p s : string) : bool :=
  match p, s with
  | EmptyString, _ => true
  | String a p', String b s' => Ascii.eqb a b && startswith p' s'
  | String _ _, EmptyString => false
  end.

(** [s[n:]] *)
Fixpoint slice_from (n : nat) (s : string) : string :=
  match n, s with
  | O, _ => s
  | S n', String _ s' => slice_from n' s'
  | S _, EmptyString => EmptyString
  end.

(** [s.endswith(p)] *)
Definition endswith (p s : string) : bool :=
  (String.length p <=? String.length s)%nat
  && String.eqb (slice_from (String.length s - String.length p) s) p.

(** [c in s] for a one-character string [c] *)
Fixpoint contains (c : ascii) (s : string) : bool :=
  match s with
  | EmptyString => false
  | String a s' => Ascii.eqb a c || contains c s'
  end.

(** [s.split(sep)] for a one-character separator.  The result is never
    empty: a string without separator is returned whole. *)
Fixpoint split (sep : ascii) (s : string) : list string :=
  match s with
  | EmptyString => [EmptyString]
  | String a s' =>
      if Ascii.eqb a sep then EmptyString :: split sep s'
      else match split sep s' with
           | f :: fs => String a f :: fs
           | [] => [String a EmptyString]
           end
  end.

(** [l[-1]] on a list of strings.  Python raises [IndexError] on the empty
    list, hence the option. *)
Definition last_item (l : list string) : option string := List.last (map Some l) None.

(** [s.replace(old, new)] for a non-empty [old]: the occurrences of [old]
    are found from left to right without overlap.  [skip] counts the
    characters of a matched occurrence still to be passed over. *)
Fixpoint replace_from (old new : string) (skip : nat) (s : string) : string :=
  match s with
  | EmptyString => EmptyString
  | String a s' =>
      match skip with
      | S k => replace_from old new k s'
      | O =>
          if startswith old s
          then new ++ replace_from old new (String.length old - 1) s'
          else String a (replace_from old new 0 s')
      end
  end.

Definition replace (old new s : string) : string := replace_from old new 0 s.

(** [posixpath.join(a, b)]: an absolute [b] (or an empty [a]) discards
    [a]; a separator is inserted unless [a] already ends with one. *)
Definition join2 (path b : string) : string :=
  if startswith "/" b || String.eqb path "" then b
  else if endswith "/" path then path ++ b
  else path ++ "/" ++ b.

(** [posixpath.join(a, *p)] *)
Definition join (a : string) (p : list string) : string := fold_left join2 p a.

(** [posixpath.basename(p)]: [p[p.rfind('/') + 1:]], the text after the
    last slash, the whole of [p] when it has none. *)
Fixpoint basename_from (acc : string) (p : string) : string :=
  match p with
  | EmptyString => acc
  | String a p' =>
      if Ascii.eqb a "/" then basename_from p' p' else basename_from acc p'
  end.

Definition basename (p : string) : string := basename_from p p.

End PyStr.

(* ===================================================================== *)
(** ** Naive datetimes: [datetime.datetime] without [tzinfo] *)
(* ===================================================================== *)

Module Datetime.

Record datetime := mkdt {
  year : Z; month : Z; day : Z;
  hour : Z; minute : Z; second : Z; microsecond : Z
}.

(** An aware datetime as boto3 returns it for [LastModified]: the wall
    clock fields together with the UTC offset (in minutes) of its
    [tzinfo]. *)
Record aware := mkaware { wall : datetime; utcoffset : Z }.

(** [d.replace(tzinfo=None)]: the fields are kept, the zone is dropped. *)
Definition replace_tzinfo_none (d : aware) : datetime := wall d.

Definition MINYEAR : Z := 1.
Definition MAXYEAR : Z := 9999.
Definition MAXORDINAL : Z := 3652059.

Definition is_leap (y : Z) : bool :=
  (y mod 4 =? 0) && (negb (y mod 100 =? 0) || (y mod 400 =? 0)).

Definition DAYS_IN_MONTH : list Z := [-1; 31; 28; 31; 30; 31; 30; 31; 31; 30; 31; 30; 31].
Definition DAYS_BEFORE_MONTH : list Z := [-1; 0; 31; 59; 90; 120; 151; 181; 212; 243; 273; 304; 334].

Definition days_in_month (y m : Z) : Z :=
  if (m =? 2) && is_leap y then 29 else nth (Z.to_nat m) DAYS_IN_MONTH 0.

Definition days_before_year (y : Z) : Z :=
  let y' := y - 1 in y' * 365 + y' / 4 - y' / 100 + y' / 400.

Definition days_before_month (y m : Z) : Z :=
  nth (Z.to_nat m) DAYS_BEFORE_MONTH 0 + (if (2 <? m) && is_leap y then 1 else 0).

(** [_ymd2ord]: 0001-01-01 is day 1. *)
Definition ymd2ord (y m d : Z) : Z := days_before_year y + days_before_month y m + d.

Definition DI400Y : Z := 146097.
Definition DI100Y : Z := 36524.
Definition DI4Y : Z := 1461.

(** [_ord2ymd] *)
Definition ord2ymd (n : Z) : Z * Z * Z :=
  let n := n - 1 in
  let n400 := n / DI400Y in let n := n mod DI400Y in
  let y := n400 * 400 + 1 in
  let n100 := n / DI100Y in let n := n mod DI100Y in
  let n4 := n / DI4Y in let n := n mod DI4Y in
  let n1 := n / 365 in let n := n mod 365 in
  let y := y + n100 * 100 + n4 * 4 + n1 in
  if (n1 =? 4) || (n100 =? 4) then (y - 1, 12, 31)
  else
    let leapyear := (n1 =? 3) && (negb (n4 =? 24) || (n100 =? 3)) in
    let m := Z.shiftr (n + 50) 5 in
    let preceding := nth (Z.to_nat m) DAYS_BEFORE_MONTH 0
                     + (if (2 <? m) && leapyear then 1 else 0) in
    if n <? preceding then
      let m := m - 1 in
      let preceding := preceding
                       - (nth (Z.to_nat m) DAYS_IN_MONTH 0
                          + (if (m =? 2) && leapyear then 1 else 0)) in
      (y, m, n - preceding + 1)
    else (y, m, n - preceding + 1).

Definition toordinal (d : datetime) : Z := ymd2ord (year d) (month d) (day d).

(** [d - timedelta(days=n)]: the date moves by whole days and the time of
    day is kept; [None] stands for the [OverflowError] raised when the
    result leaves the supported range. *)
Definition sub_days (d : datetime) (n : Z) : option datetime :=
  let o := toordinal d - n in
  if (0 <? o) && (o <=? MAXORDINAL) then
    let '(y, m, dd) := ord2ymd o in
    Some (mkdt y m dd (hour d) (minute d) (second d) (microsecond d))
  else None.

(** [a < b] on naive datetimes compares the fields in order. *)
Fixpoint lex_lt (a b : list Z) : bool :=
  match a, b with
  | x :: a', y :: b' => (x <? y) || ((x =? y) && lex_lt a' b')
  | [], _ :: _ => true
  | _, [] => false
  end.

Definition fields (d : datetime) : list Z :=
  [year d; month d; day d; hour d; minute d; second d; microsecond d].

Definition lt (a b : datetime) : bool := lex_lt (fields a) (fields b).

(** *** Formatting with [LOCAL_DATE_FORMAT = "%Y-%m-%dT%H:%M:%S"] *)

Definition decimal (n : Z) : string := NilZero.string_of_uint (N.to_uint (Z.to_N n)).

Fixpoint zeros (n : nat) : string :=
  match n with O => "" | S k => String "0" (zeros k) end.

(** [%0wd] *)
Definition zfill (w : nat) (n : Z) : string :=
  let s := decimal n in zeros (w - String.length s) ++ s.

(** [d.strftime(LOCAL_DATE_FORMAT)].  Years are printed on four digits
    (below 1000 the C library decides the padding; the clock never reads
    such a year). *)
Definition strftime (d : datetime) : string :=
  zfill 4 (year d) ++ "-" ++ zfill 2 (month d) ++ "-" ++ zfill 2 (day d) ++ "T"
  ++ zfill 2 (hour d) ++ ":" ++ zfill 2 (minute d) ++ ":" ++ zfill 2 (second d).

(** *** Parsing with [LOCAL_DATE_FORMAT]

    [_strptime] turns the format into a regular expression, one group of
    alternatives per directive, compiled with [IGNORECASE], and matches it
    at the start of the text with backtracking; each alternative below is
    a sequence of character classes. *)

Definition cls := ascii -> bool.

Definition rng (lo hi : ascii) : cls :=
  fun c => (nat_of_ascii lo <=? nat_of_ascii c)%nat && (nat_of_ascii c <=? nat_of_ascii hi)%nat.

Definition digit : cls := rng "0" "9".
Definition chr (a : ascii) : cls := fun c => Ascii.eqb c a.
(** a letter of the format, matched without regard to case *)
Definition letter (up low : ascii) : cls := fun c => Ascii.eqb c up || Ascii.eqb c low.

Definition alternative := list cls.
Definition group := list alternative.

Definition re_Y : group := [[digit; digit; digit; digit]].
Definition re_m : group := [[chr "1"; rng "0" "2"]; [chr "0"; rng "1" "9"]; [rng "1" "9"]].
Definition re_d : group :=
  [[chr "3"; rng "0" "1"]; [rng "1" "2"; digit]; [chr "0"; rng "1" "9"]; [rng "1" "9"];
   [chr " "; rng "1" "9"]].
Definition re_H : group := [[chr "2"; rng "0" "3"]; [rng "0" "1"; digit]; [digit]].
Definition re_M : group := [[rng "0" "5"; digit]; [digit]].
Definition re_S : group := [[chr "6"; rng "0" "1"]; [rng "0" "5"; digit]; [digit]].
Definition re_lit (c : cls) : group := [[c]].

Definition format_regex : list group :=
  [re_Y; re_lit (chr "-"); re_m; re_lit (chr "-"); re_d; re_lit (letter "T" "t");
   re_H; re_lit (chr ":"); re_M; re_lit (chr ":"); re_S].

(** One alternative against the start of [s]: the text consumed and the
    rest. *)
Fixpoint match_alt (a : alternative) (s : string) : option (string * string) :=
  match a with
  | [] => Some ("", s)
  | p :: a' =>
      match s with
      | String c s' =>
          if p c then
            match match_alt a' s' with
            | Some (tok, rest) => Some (String c tok, rest)
            | None => None
            end
          else None
      | EmptyString => None
      end
  end.

(** The groups in sequence; the alternatives of a group are tried in
    order and the first one that lets the remaining groups match wins. *)
Fixpoint match_groups (gs : list group) (s : string) : option (list string * string) :=
  match gs with
  | [] => Some ([], s)
  | g :: gs' =>
      (fix try (alts : list alternative) : option (list string * string) :=
         match alts with
         | [] => None
         | a :: alts' =>
             match match_alt a s with
             | Some (tok, rest) =>
                 match match_groups gs' rest with
                 | Some (toks, r) => Some (tok :: toks, r)
                 | None => try alts'
                 end
             | None => try alts'
             end
         end) g
  end.

(** [int(tok)] on a matched group: decimal digits, after optional blanks. *)
Fixpoint int_digits (acc : Z) (s : string) : option Z :=
  match s with
  | EmptyString => Some acc
  | String c s' =>
      if digit c then int_digits (acc * 10 + (Z.of_nat (nat_of_ascii c) - 48)) s'
      else None
  end.

Fixpoint lstrip (s : string) : string :=
  match s with
  | String c s' => if Ascii.eqb c " " then lstrip s' else s
  | EmptyString => s
  end.

Definition py_int (s : string) : option Z :=
  match lstrip s with
  | EmptyString => None
  | t => int_digits 0 t
  end.

(** The range checks of the [datetime] constructor. *)
Definition check_fields (y m d hh mi ss : Z) : bool :=
  (MINYEAR <=? y) && (y <=? MAXYEAR) && (1 <=? m) && (m <=? 12)
  && (1 <=? d) && (d <=? days_in_month y m)
  && (0 <=? hh) && (hh <=? 23) && (0 <=? mi) && (mi <=? 59) && (0 <=? ss) && (ss <=? 59).

(** [datetime.strptime(s, LOCAL_DATE_FORMAT)]; [None] stands for the
    [ValueError] raised when the text does not match, when text is left
    over or when the fields do not form a date. *)
Definition strptime (s : string) : option datetime :=
  match match_groups format_regex s with
  | Some ([tY; _; tm; _; td; _; tH; _; tM; _; tS], EmptyString) =>
      match py_int tY, py_int tm, py_int td, py_int tH, py_int tM, py_int tS with
      | Some y, Some m, Some d, Some hh, Some mi, Some ss =>
          if check_fields y m d hh mi ss then Some (mkdt y m d hh mi ss 0) else None
      | _, _, _, _, _, _ => None
      end
  | _ => None
  end.

End Datetime.

(* ===================================================================== *)
(** ** The backup script *)
(* ===================================================================== *)

Module Backup.
Import PyStr Datetime.

(** *** Configuration

    The module-level constants of [main.py], read once from the
    environment.  [script_dir] is
    [os.path.dirname(os.path.realpath(__file__))]; the two [env_] fields
    are the raw environment values that the script joins to it. *)
Record config := mkconfig {
  AWS_S3_BUCKET_NAME : string;
  AWS_S3_BACKUP_FOLDER : string;
  script_dir : string;
  env_PATH_TO_SQL_DUMPS : string;
  DATABASES : list string;
  env_MYSQL_CNF_PATH : string
}.

Definition PATH_TO_SQL_DUMPS (cfg : config) : string :=
  join (script_dir cfg) [env_PATH_TO_SQL_DUMPS cfg].

Definition MYSQL_CNF_PATH (cfg : config) : string :=
  join (script_dir cfg) [env_MYSQL_CNF_PATH cfg].

(** *** Exceptions, files, remote objects, log lines, calls *)

(** Every exception raised by the library calls of the script derives
    from [Exception]; it carries its class name and [str(e)].  The text
    of the messages of library errors is not reproduced to the letter. *)
Record exn := mkexn { exn_class : string; exn_str : string }.

Inductive result (A : Type) : Type :=
| Ok (a : A)
| Raise (e : exn).
Arguments Ok {A} a.
Arguments Raise {A} e.

(** A local file is plain data or a zip archive with named entries. *)
#[warnings="-register-all"] Inductive file : Type :=
| Raw (data : string)
| Archive (entries : list (string * file)).

(** What the bucket keeps under a key. *)
Record s3entry := mkentry { body : file; modified : aware }.

(** An element of [response["Contents"]]: S3 reports the key and the
    time of last modification of every object it lists. *)
Record s3obj := mkobj { Key : string; LastModified : aware }.

(** The response of [list_objects_v2]; the ["Contents"] key is absent when
    nothing matches the prefix. *)
Record response := mkresponse { Contents : option (list s3obj) }.

Inductive level := INFO | WARNING | ERROR.

(** The calls that leave the process, with their outcome. *)
Inductive event : Type :=
| EvShell (cmd : string) (ok : bool)
| EvUpload (file_path key : string) (ok : bool)
| EvList (prefix : string) (resp : option response)
| EvDelete (key : string) (ok : bool).

(** *** The world and its environment *)

Record world := mkworld {
  fs : gmap string file;          (* local filesystem *)
  bucket : gmap string s3entry;   (* the bucket AWS_S3_BUCKET_NAME *)
  log : list (level * string);    (* backup.log, oldest line first *)
  trace : list event;             (* outgoing calls, oldest first *)
  ticks : nat                     (* interactions with the environment so far *)
}.

Inductive dump_outcome :=
| DumpOk (data : string)
    (** exit status 0, [data] was redirected into the target *)
| DumpFailed (partial : option string) (e : exn).
    (** non-zero exit status ([CalledProcessError]); the shell may have
        created the target before the command failed *)

Inductive zip_outcome :=
| ZipOk
| ZipOpenFailed (e : exn)     (** the archive could not be created *)
| ZipWriteFailed (e : exn).   (** the entry could not be written *)

(** Everything the script does not control, as a function of the moment
    ([ticks]) at which it is asked. *)
Record environment := mkenv {
  clock : nat -> datetime;                          (* datetime.now() *)
  s3_clock : nat -> aware;                          (* time stamp given by S3 *)
  mysqldump : nat -> string -> dump_outcome;        (* the shell command *)
  zipper : nat -> string -> zip_outcome;            (* zipfile *)
  upload_fault : nat -> string -> string -> option exn;
  list_fault : nat -> string -> option exn;
  delete_fault : nat -> string -> option exn
}.

Definition set_fs (f : gmap string file) (w : world) : world :=
  mkworld f (bucket w) (log w) (trace w) (ticks w).
Definition set_bucket (b : gmap string s3entry) (w : world) : world :=
  mkworld (fs w) b (log w) (trace w) (ticks w).
Definition add_log (l : level) (msg : string) (w : world) : world :=
  mkworld (fs w) (bucket w) (log w ++ [(l, msg)]) (trace w) (ticks w).
Definition add_event (e : event) (w : world) : world :=
  mkworld (fs w) (bucket w) (log w) (trace w ++ [e]) (ticks w).
Definition next_tick (w : world) : world :=
  mkworld (fs w) (bucket w) (log w) (trace w) (S (ticks w)).

(** *** State and exception monad *)

Definition M (A : Type) : Type := world -> result A * world.

Definition ret {A} (a : A) : M A := fun w => (Ok a, w).

Definition bind {A B} (m : M A) (k : A -> M B) : M B :=
  fun w => match m w with
           | (Ok a, w') => k a w'
           | (Raise e, w') => (Raise e, w')
           end.

Definition raise {A} (e : exn) : M A := fun w => (Raise e, w).

(** [try: m  except Exception as e: h e] *)
Definition try_except {A} (m : M A) (h : exn -> M A) : M A :=
  fun w => match m w with
           | (Ok a, w') => (Ok a, w')
           | (Raise e, w') => h e w'
           end.

Definition modify (f : world -> world) : M unit := fun w => (Ok tt, f w).
Definition gets {A} (f : world -> A) : M A := fun w => (Ok (f w), w).

Declare Scope backup_scope.
Delimit Scope backup_scope with backup.
Notation "x <- m ;; k" := (bind m (fun x => k))
  (at level 100, m at next level, right associativity) : backup_scope.
Notation "m ;; k" := (bind m (fun _ => k))
  (at level 100, right associativity) : backup_scope.
Local Open Scope backup_scope.

(** an optional library result, [None] raising [e] *)
Definition lift_opt {A} (o : option A) (e : exn) : M A :=
  match o with Some a => ret a | None => raise e end.

Definition logging (l : level) (msg : string) : M unit := modify (add_log l msg).

Definition IndexError : exn := mkexn "IndexError" "list index out of range".
Definition ValueError : exn := mkexn "ValueError" "time data does not match format".
Definition OverflowError : exn := mkexn "OverflowError" "date value out of range".
Definition FileNotFoundError (p : string) : exn :=
  mkexn "FileNotFoundError" ("No such file or directory: " ++ p).

(** *** Library calls with effects *)

Section Script.

Variable cfg : config.
Variable env : environment.

(** One interaction with the environment: the moment is read and time
    moves on. *)
Definition tick : M nat := fun w => (Ok (ticks w), next_tick w).

(** [datetime.now()] *)
Definition datetime_now : M datetime := n <- tick ;; ret (clock env n).

(** [subprocess.run(cmd, shell=True, check=True)] for a command whose
    output is redirected into [target]. *)
Definition subprocess_run (cmd target : string) : M unit :=
  n <- tick ;;
  match mysqldump env n cmd with
  | DumpOk data =>
      modify (fun w => set_fs (<[target := Raw data]> (fs w)) w) ;;
      modify (add_event (EvShell cmd true))
  | DumpFailed partial e =>
      match partial with
      | Some data => modify (fun w => set_fs (<[target := Raw data]> (fs w)) w)
      | None => ret tt
      end ;;
      modify (add_event (EvShell cmd false)) ;;
      raise e
  end.

(** [with zipfile.ZipFile(archive, "w", ZIP_DEFLATED) as zipf:
         zipf.write(source, arcname)]
    The archive is created empty when it is opened; it is closed on the
    way out also when writing the entry fails. *)
Definition zip_write (archive source arcname : string) : M unit :=
  n <- tick ;;
  match zipper env n archive with
  | ZipOpenFailed e => raise e
  | outcome =>
      modify (fun w => set_fs (<[archive := Archive []]> (fs w)) w) ;;
      src <- gets (fun w => fs w !! source) ;;
      match src, outcome with
      | None, _ => raise (FileNotFoundError source)
      | Some _, ZipWriteFailed e => raise e
      | Some f, _ =>
          modify (fun w => set_fs (<[archive := Archive [(arcname, f)]]> (fs w)) w)
      end
  end.

(** [os.remove(path)]: [FileNotFoundError] when the file is missing.  The
    filesystem of the model has no permissions, so an existing file is
    always removed. *)
Definition os_remove (path : string) : M unit :=
  present <- gets (fun w => fs w !! path) ;;
  match present with
  | None => raise (FileNotFoundError path)
  | Some _ => modify (fun w => set_fs (delete path (fs w)) w)
  end.

(** [s3_client.upload_file(file_path, AWS_S3_BUCKET_NAME, key)] *)
Definition s3_upload_file (file_path key : string) : M unit :=
  n <- tick ;;
  src <- gets (fun w => fs w !! file_path) ;;
  match src, upload_fault env n file_path key with
  | None, _ =>
      modify (add_event (EvUpload file_path key false)) ;;
      raise (FileNotFoundError file_path)
  | Some _, Some e =>
      modify (add_event (EvUpload file_path key false)) ;;
      raise e
  | Some f, None =>
      modify (fun w => set_bucket (<[key := mkentry f (s3_clock env n)]> (bucket w)) w) ;;
      modify (add_event (EvUpload file_path key true))
  end.

(** S3 lists keys in their binary order, at most 1000 per call. *)
Definition key_le (a b : string * s3entry) : Prop := String.leb a.1 b.1 = true.

#[export] Instance key_le_dec : RelDecision key_le.
Proof. intros a b. unfold key_le. apply _. Defined.

Definition MaxKeys : nat := 1000.

Definition listing (prefix : string) (b : gmap string s3entry) : list s3obj :=
  map (fun kv => mkobj kv.1 (modified kv.2))
    (firstn MaxKeys
       (List.filter (fun kv => startswith prefix kv.1)
          (merge_sort key_le (map_to_list b)))).

(** [s3_client.list_objects_v2(Bucket=AWS_S3_BUCKET_NAME, Prefix=prefix)] *)
Definition s3_list_objects_v2 (prefix : string) : M response :=
  n <- tick ;;
  match list_fault env n prefix with
  | Some e => modify (add_event (EvList prefix None)) ;; raise e
  | None =>
      objs <- gets (fun w => listing prefix (bucket w)) ;;
      let resp := mkresponse (match objs with [] => None | _ => Some objs end) in
      modify (add_event (EvList prefix (Some resp))) ;;
      ret resp
  end.

(** [s3_client.delete_object(Bucket=AWS_S3_BUCKET_NAME, Key=key)] *)
Definition s3_delete_object (key : string) : M unit :=
  n <- tick ;;
  match delete_fault env n key with
  | Some e => modify (add_event (EvDelete key false)) ;; raise e
  | None =>
      modify (fun w => set_bucket (delete key (bucket w)) w) ;;
      modify (add_event (EvDelete key true))
  end.

(** *** The functions of [main.py] *)

Definition LOCAL_DATE_FORMAT : string := "%Y-%m-%dT%H:%M:%S".

(** the path built at the top of [dump_database] *)
Definition backup_file_path (db_name : string) (now : datetime) : string :=
  join (script_dir cfg) [PATH_TO_SQL_DUMPS cfg; db_name ++ "_" ++ strftime now ++ ".sql"].

(** the command line handed to the shell *)
Definition dump_command (db_name backup_file : string) : string :=
  "mysqldump --defaults-extra-file=" ++ MYSQL_CNF_PATH cfg ++ " " ++ db_name
  ++ " > " ++ backup_file.

Definition dump_database (db_name : string) : M (option string) :=
  try_except
    (now <- datetime_now ;;
     let backup_file := backup_file_path db_name now in
     subprocess_run (dump_command db_name backup_file) backup_file ;;
     let compressed_file := backup_file ++ ".zip" in
     zip_write compressed_file backup_file (basename backup_file) ;;
     os_remove backup_file ;;
     logging INFO ("Backup and compression successful for database: " ++ db_name) ;;
     ret (Some compressed_file))
    (fun e =>
       logging ERROR ("Error backing up database " ++ db_name ++ ": " ++ exn_str e) ;;
       ret None).

(** the key computed at the top of the [try] block of [upload_to_s3] *)
Definition s3_path (file_name : string) : string :=
  join (AWS_S3_BACKUP_FOLDER cfg) [file_name].

Definition upload_to_s3 (file_path : string) : M unit :=
  let file_name := basename file_path in
  try_except
    (let s3_path := s3_path file_name in
     s3_upload_file file_path s3_path ;;
     logging INFO ("Uploaded " ++ file_name ++ " to S3 bucket " ++ AWS_S3_BUCKET_NAME cfg) ;;
     os_remove file_path)
    (fun e =>
       logging ERROR ("Error uploading " ++ file_name ++ " to S3: " ++ exn_str e)).

(** [obj["Key"].split("_")[-1].replace(".sql.zip", "")] *)
Definition backup_date_str (key : string) : option string :=
  match last_item (split "_" key) with
  | Some field => Some (replace ".sql.zip" "" field)
  | None => None
  end.

(** the inner [try] of the listing loop: the date parsed from the key,
    the object's own time stamp when that raises *)
Definition backup_date_of (obj : s3obj) : M datetime :=
  try_except
    (backup_date_str <- lift_opt (backup_date_str (Key obj)) IndexError ;;
     lift_opt (strptime backup_date_str) ValueError)
    (fun e =>
       logging INFO ("Error getting backup date: " ++ exn_str e) ;;
       ret (replace_tzinfo_none (LastModified obj))).

(** [for obj in response["Contents"]: ...] *)
Fixpoint collect_old (retention_date : datetime) (objs : list s3obj)
    (backups_to_delete : list string) : M (list string) :=
  match objs with
  | [] => ret backups_to_delete
  | obj :: rest =>
      backup_date <- backup_date_of obj ;;
      if lt backup_date retention_date
      then collect_old retention_date rest (backups_to_delete ++ [Key obj])
      else collect_old retention_date rest backups_to_delete
  end.

(** [for backup in backups_to_delete: ...] *)
Fixpoint delete_each (backups_to_delete : list string) : M unit :=
  match backups_to_delete with
  | [] => ret tt
  | backup :: rest =>
      s3_delete_object backup ;;
      logging INFO ("Deleted old backup: " ++ backup ++ " from S3") ;;
      delete_each rest
  end.

Definition retention_days : Z := 14.

Definition delete_old_backups : M unit :=
  try_except
    (now <- datetime_now ;;
     retention_date <- lift_opt (sub_days now retention_days) OverflowError ;;
     response <- s3_list_objects_v2 (AWS_S3_BACKUP_FOLDER cfg) ;;
     backups_to_delete <-
       match Contents response with
       | Some objs => collect_old retention_date objs []
       | None => ret []
       end ;;
     delete_each backups_to_delete)
    (fun e =>
       logging ERROR ("Error deleting old backups from S3: " ++ exn_str e)).

(** [if backup_file:] on the value returned by [dump_database]: [None]
    and the empty string are false. *)
Definition truthy (backup_file : option string) : bool :=
  match backup_file with
  | Some p => negb (String.eqb p "")
  | None => false
  end.

(** [for db in DATABASES: ...] *)
Fixpoint backup_each (dbs : list string) (backups_generated : list string)
    : M (list string) :=
  match dbs with
  | [] => ret backups_generated
  | db :: rest =>
      backup_file <- dump_database db ;;
      match backup_file with
      | Some p =>
          if truthy backup_file
          then upload_to_s3 p ;; backup_each rest (backups_generated ++ [p])
          else backup_each rest backups_generated
      | None => backup_each rest backups_generated
      end
  end.

Definition perform_backup : M unit :=
  backups_generated <- backup_each (DATABASES cfg) [] ;;
  match backups_generated with
  | _ :: _ => delete_old_backups
  | [] => logging WARNING "No backups generated. Skipping deletion of old backups."
  end.

End Script.

End Backup.

(* ===================================================================== *)
(** ** The vocabulary of the properties *)
(* ===================================================================== *)

(** What can be observed of a run (the calls and the log lines it added,
    the keys it queued and deleted) and the statements of the
    specification that are discussed below. *)

Module Observe.
Import PyStr Datetime Backup.
Local Open Scope list_scope.

(** *** Texts *)

(** The characters the format can match at all. *)
Definition allowed (c : ascii) : bool :=
  digit c || chr "-" c || letter "T" "t" c || chr ":" c || chr " " c.

Fixpoint all_chars (p : ascii -> bool) (s : string) : bool :=
  match s with
  | EmptyString => true
  | String a s' => p a && all_chars p s'
  end.

Definition cls_allowed (p : cls) : Prop := forall c, p c = true -> allowed c = true.

(** the matched groups put back together *)
Definition cat (toks : list string) : string := fold_right String.append "" toks.

(** The first alternative of a group that matches at the start of [s]:
    the text it consumes and the rest. *)
Fixpoint first_alt (g : group) (s : string) : option (string * string) :=
  match g with
  | [] => None
  | a :: g' =>
      match match_alt a s with
      | Some r => Some r
      | None => first_alt g' s
      end
  end.

(** The number [v] printed on [w] digits is read back by the group [g]:
    its first matching alternative consumes the whole text, [int] gives
    [v] back, and no alternative is longer than the text. *)
Definition field_ok (g : group) (w : nat) (v : Z) : bool :=
  match first_alt g (zfill w v) with
  | Some (tok, EmptyString) =>
      String.eqb tok (zfill w v)
      && match py_int tok with Some n => n =? v | None => false end
      && forallb (fun a => (length a <=? String.length (zfill w v))%nat) g
  | _ => false
  end.

(** the numbers [lo], [lo + 1], ..., [hi] *)
Definition numbers (lo hi : Z) : list Z :=
  map (fun i => lo + Z.of_nat i) (seq 0 (Z.to_nat (hi - lo + 1))).

(** The fields of [d] pass the range checks of the [datetime] constructor. *)
Definition valid_fields (d : datetime) : bool :=
  check_fields (year d) (month d) (day d) (hour d) (minute d) (second d).

(** [d.replace(microsecond=0)] *)
Definition to_the_second (d : datetime) : datetime :=
  mkdt (year d) (month d) (day d) (hour d) (minute d) (second d) 0.

(** a directory part: empty, or ending with a slash *)
Definition dir_part (d : string) : Prop := d = "" \/ exists x, d = (x ++ "/")%string.

(** *** Traces and logs *)

(** What a run added to the trace and to the log. *)
Definition new_events (w w' : world) : list event :=
  drop (length (trace w)) (trace w').
Definition new_log (w w' : world) : list (level * string) :=
  drop (length (log w)) (log w').

Definition is_info (line : level * string) : Prop := line.1 = INFO.
Definition is_error (line : level * string) : Prop := line.1 = ERROR.

(** a shell command *)
Definition is_shell (ev : event) : Prop :=
  match ev with EvShell _ _ => True | _ => False end.

(** a call the pruner makes: listing or deleting *)
Definition is_prune_call (ev : event) : Prop :=
  match ev with EvList _ _ | EvDelete _ _ => True | _ => False end.

(** the shell commands of a trace, in order *)
Definition shell_cmds (evs : list event) : list string :=
  flat_map (fun ev => match ev with EvShell cmd _ => [cmd] | _ => [] end) evs.

(** the keys of the delete calls of a trace, refused ones included *)
Definition delete_calls (evs : list event) : list string :=
  flat_map (fun ev => match ev with EvDelete k _ => [k] | _ => [] end) evs.

(** the listing calls of a trace *)
Definition list_calls (evs : list event) : list event :=
  List.filter (fun ev => match ev with EvList _ _ => true | _ => false end) evs.


Definition dump_error_line (db : string) (e : exn) : level * string :=
  (ERROR, ("Error backing up database " ++ db ++ ": " ++ exn_str e)%string).

Definition dump_ok_line (db : string) : level * string :=
  (INFO, ("Backup and compression successful for database: " ++ db)%string).

Definition upload_error_line (file_name : string) (e : exn) : level * string :=
  (ERROR, ("Error uploading " ++ file_name ++ " to S3: " ++ exn_str e)%string).

Definition prune_error_line (e : exn) : level * string :=
  (ERROR, ("Error deleting old backups from S3: " ++ exn_str e)%string).

Definition failed_line (f : option (string * exn)) : list (level * string) :=
  match f with None => [] | Some (_, e) => [prune_error_line e] end.

Definition deleted_line (k : string) : level * string :=
  (INFO, ("Deleted old backup: " ++ k ++ " from S3")%string).

Definition warning_text : string :=
  "No backups generated. Skipping deletion of old backups.".

(** *** The listing loop and the delete loop *)

(** The date the listing loop compares with the retention date: the one
    parsed from the key, the object's own time stamp otherwise. *)
Definition backup_date (obj : s3obj) : datetime :=
  match backup_date_str (Key obj) with
  | Some s =>
      match strptime s with
      | Some d => d
      | None => replace_tzinfo_none (LastModified obj)
      end
  | None => replace_tzinfo_none (LastModified obj)
  end.

(** A key from which no date can be parsed. *)
Definition unparsable (key : string) : Prop :=
  match backup_date_str key with
  | Some s => strptime s = None
  | None => True
  end.

(** The keys the listing loop queues, in listing order. *)
Definition old_keys (retention_date : datetime) (objs : list s3obj) : list string :=
  map Key (List.filter (fun o => lt (backup_date o) retention_date) objs).

(** the objects of a response, none when ["Contents"] is absent *)
Definition objects (resp : response) : list s3obj :=
  match Contents resp with Some objs => objs | None => [] end.

(** the part of the bucket a listing call looks at, in listing order *)
Definition listed_entries (pre : string) (b : gmap string s3entry)
    : list (string * s3entry) :=
  firstn MaxKeys (List.filter (fun kv => startswith pre kv.1)
                    (merge_sort key_le (map_to_list b))).

Definition remove_keys (done : list string) (b : gmap string s3entry) : gmap string s3entry :=
  fold_left (fun b k => delete k b) done b.

Definition delete_result (f : option (string * exn)) : result unit :=
  match f with None => Ok tt | Some (_, e) => Raise e end.

Definition failed_event (f : option (string * exn)) : list event :=
  match f with None => [] | Some (k, _) => [EvDelete k false] end.

(** The local files after a successful dump of [data] into
    [backup_file]: the archive holds exactly one entry, named after the
    base name of the dump file, the dump file does not exist, and nothing
    else has changed. *)
Definition archived (w w' : world) (backup_file data : string) : Prop :=
  fs w' !! (backup_file ++ ".zip")%string
  = Some (Archive [(basename backup_file, Raw data)])
  /\ fs w' !! backup_file = None
  /\ (forall q, q <> (backup_file ++ ".zip")%string -> q <> backup_file ->
        fs w' !! q = fs w !! q).

Section Configured.

Variable cfg : config.
Variable env : environment.

Definition prefix : string := AWS_S3_BACKUP_FOLDER cfg.

(** the response of a listing call that is not refused *)
Definition list_response (b : gmap string s3entry) : response :=
  mkresponse (match listing prefix b with [] => None | _ => Some (listing prefix b) end).

(** The delete loop, started at moment [n]: the keys deleted before the
    first refusal, and that refusal if there is one. *)
Fixpoint delete_run (n : nat) (keys : list string)
    : list string * option (string * exn) :=
  match keys with
  | [] => ([], None)
  | k :: rest =>
      match delete_fault env n k with
      | Some e => ([], Some (k, e))
      | None => let '(done, f) := delete_run (S n) rest in (k :: done, f)
      end
  end.

Definition upload_ok_line (file_name : string) : level * string :=
  (INFO, ("Uploaded " ++ file_name ++ " to S3 bucket " ++ AWS_S3_BUCKET_NAME cfg)%string).

(** Every dump attempt of the loop, started in [w], returns no artifact. *)
Fixpoint all_dumps_fail (dbs : list string) (w : world) : bool :=
  match dbs with
  | [] => true
  | db :: rest =>
      match dump_database cfg env db w with
      | (Ok None, w1) => all_dumps_fail rest w1
      | _ => false
      end
  end.

(** [cmd] is the dump command of database [db] for some target file *)
Definition dumps (db cmd : string) : Prop :=
  exists backup_file, cmd = dump_command cfg db backup_file.

End Configured.

(** *** Statements of the specification that the code does not meet *)

(** The statement of C8 as the specification words it: in a pruning call
    that got its listing, a delete call is attempted for every queued
    object (every listed object older than the retention date), whatever
    happens to the other delete calls. *)
Definition remaining_deletes_attempted (cfg : config) (env : environment) (w : world) : Prop :=
  let w' := (delete_old_backups cfg env w).2 in
  forall resp cutoff o,
    In (EvList (AWS_S3_BACKUP_FOLDER cfg) (Some resp)) (new_events w w') ->
    sub_days (clock env (ticks w)) retention_days = Some cutoff ->
    In o (objects resp) -> lt (backup_date o) cutoff = true ->
    exists ok, In (EvDelete (Key o) ok) (new_events w w').

(** The statement of C9 as the specification words it: the file name of
    the artifact is [database_timestamp.sql.zip] and its remote key is
    the configured prefix, a slash, and that file name. *)
Definition naming_as_stated : Prop :=
  forall cfg env db w p w',
    dump_database cfg env db w = (Ok (Some p), w') ->
    basename p = (db ++ "_" ++ strftime (clock env (ticks w)) ++ ".sql.zip")%string
    /\ s3_path cfg (basename p) = (AWS_S3_BACKUP_FOLDER cfg ++ "/" ++ basename p)%string.

End Observe.

(* ===================================================================== *)
(** ** Sample configurations, environments and worlds *)
(* ===================================================================== *)

Module Examples.
Import PyStr Datetime Backup.

Definition cfg0 : config :=
  mkconfig "bucket" "backups" "/srv/app" "dumps" ["app"; "billing"] "my.cnf".

(** the same with a trailing slash on the remote folder *)
Definition cfg_slash : config :=
  mkconfig "bucket" "backups/" "/srv/app" "dumps" ["app"; "billing"] "my.cnf".

(** 2024-06-15 12:00:00.000250 *)
Definition noon : datetime := mkdt 2024 6 15 12 0 0 250.

Definition utc (d : datetime) : aware := mkaware d 0.

Definition AccessDenied : exn := mkexn "ClientError" "AccessDenied".
Definition CalledProcessError : exn :=
  mkexn "CalledProcessError" "Command returned non-zero exit status 2.".

(** every call succeeds *)
Definition env_ok : environment :=
  mkenv (fun _ => noon) (fun _ => utc noon) (fun _ _ => DumpOk "-- dump")
    (fun _ _ => ZipOk) (fun _ _ _ => None) (fun _ _ => None) (fun _ _ => None).

(** the dump command fails for every database *)
Definition env_dump_fails : environment :=
  mkenv (fun _ => noon) (fun _ => utc noon) (fun _ _ => DumpFailed None CalledProcessError)
    (fun _ _ => ZipOk) (fun _ _ _ => None) (fun _ _ => None) (fun _ _ => None).

(** S3 refuses every upload *)
Definition env_upload_fails : environment :=
  mkenv (fun _ => noon) (fun _ => utc noon) (fun _ _ => DumpOk "-- dump")
    (fun _ _ => ZipOk) (fun _ _ _ => Some AccessDenied) (fun _ _ => None) (fun _ _ => None).

(** S3 refuses every delete *)
Definition env_delete_fails : environment :=
  mkenv (fun _ => noon) (fun _ => utc noon) (fun _ _ => DumpOk "-- dump")
    (fun _ _ => ZipOk) (fun _ _ _ => None) (fun _ _ => None) (fun _ _ => Some AccessDenied).

Definition DiskFull : exn := mkexn "OSError" "No space left on device".

(** the dump command succeeds, the entry of the archive cannot be written *)
Definition env_zip_fails : environment :=
  mkenv (fun _ => noon) (fun _ => utc noon) (fun _ _ => DumpOk "-- dump")
    (fun _ _ => ZipWriteFailed DiskFull) (fun _ _ _ => None) (fun _ _ => None)
    (fun _ _ => None).

(** the dump command fails after the shell has created its output file *)
Definition env_dump_partial : environment :=
  mkenv (fun _ => noon) (fun _ => utc noon)
    (fun _ _ => DumpFailed (Some "-- partial") CalledProcessError)
    (fun _ _ => ZipOk) (fun _ _ _ => None) (fun _ _ => None) (fun _ _ => None).

Definition local_dump : string := "/srv/app/dumps/app_2024-06-15T12:00:00.sql".

Definition key_may : string := "backups/app_2024-05-01T00:00:00.sql.zip".
Definition key_june : string := "backups/app_2024-06-10T00:00:00.sql.zip".
Definition key_notes : string := "backups/notes.txt".

(** an archive of May (old), one of June (recent), and a file without
    date in its name, last modified in January (old) *)
Definition some_backups : gmap string s3entry :=
  <[key_may := mkentry (Raw "may") (utc noon)]>
    (<[key_june := mkentry (Raw "june") (utc noon)]>
       (<[key_notes := mkentry (Raw "notes") (utc (mkdt 2024 1 1 0 0 0 0))]> ∅)).

Definition w_empty : world := mkworld ∅ ∅ [] [] 0.
Definition w_backups : world := mkworld ∅ some_backups [] [] 0.

Definition local_archive : string := "/srv/app/dumps/app_2024-06-15T12:00:00.sql.zip".

(** a world with one local archive waiting to be uploaded *)
Definition w_archive : world :=
  mkworld (<[local_archive := Archive [("app_2024-06-15T12:00:00.sql", Raw "-- dump")]]> ∅)
    ∅ [] [] 0.

Definition obj_may : s3obj := mkobj key_may (utc noon).
Definition obj_june : s3obj := mkobj key_june (utc noon).
Definition obj_notes : s3obj := mkobj key_notes (utc (mkdt 2024 1 1 0 0 0 0)).

End Examples.

(* ===================================================================== *)
(** ** Facts about the string and date functions *)
(* ===================================================================== *)

Module PyStrFacts.
Import PyStr.

Lemma split_nonempty sep s : split sep s <> [].
Proof.
  destruct s as [|a s]; simpl; [discriminate|].
  destruct (Ascii.eqb a sep); [discriminate|].
  destruct (split sep s); discriminate.
Qed.

(** [split] on a text without separator gives the text itself. *)
Lemma split_no_sep sep s : contains sep s = false -> split sep s = [s].
Proof.
  induction s as [|a s IH]; simpl; [reflexivity|].
  intros H. apply orb_false_iff in H as [Ha Hs].
  rewrite Ha, (IH Hs). reflexivity.
Qed.

Lemma last_item_cons x y l : last_item (x :: y :: l) = last_item (y :: l).
Proof. reflexivity. Qed.

Lemma last_item_split_cons sep a s :
  last_item (split sep (String a s)) =
  if Ascii.eqb a sep then last_item (split sep s)
  else match last_item (split sep s) with
       | Some f => if contains sep s then Some f else Some (String a f)
       | None => None
       end.
Proof.
  simpl. destruct (Ascii.eqb a sep) eqn:Ha.
  - pose proof (split_nonempty sep s) as Hne.
    destruct (split sep s) as [|f fs]; [contradiction|]. reflexivity.
  - destruct (contains sep s) eqn:Hc.
    + (* the first field is not the last one *)
      assert (Hlen : exists f g fs, split sep s = f :: g :: fs).
      { clear Ha. induction s as [|b s IH]; simpl in *; [discriminate|].
        destruct (Ascii.eqb b sep) eqn:Hb.
        - pose proof (split_nonempty sep s) as Hne.
          destruct (split sep s) as [|g fs]; [contradiction|]. eauto.
        - simpl in Hc. destruct (IH Hc) as (f & g & fs & ->). eauto. }
      destruct Hlen as (f & g & fs & ->). rewrite !last_item_cons.
      destruct (last_item (g :: fs)); reflexivity.
    + rewrite (split_no_sep _ _ Hc). reflexivity.
Qed.

(** The last field of [split] is the text after the last separator. *)
Lemma last_item_split_app sep before field :
  contains sep field = false ->
  last_item (split sep (before ++ String sep field)) = Some field.
Proof.
  intros Hf. induction before as [|a before IH].
  - simpl. rewrite Ascii.eqb_refl.
    rewrite (split_no_sep _ _ Hf). reflexivity.
  - change (String a before ++ String sep field)
      with (String a (before ++ String sep field)).
    rewrite last_item_split_cons, IH.
    assert (Hc : contains sep (before ++ String sep field) = true).
    { clear. induction before as [|b before IHb]; simpl.
      - rewrite Ascii.eqb_refl. reflexivity.
      - rewrite IHb. apply orb_true_r. }
    rewrite Hc. destruct (Ascii.eqb a sep); reflexivity.
Qed.

Lemma last_item_split_no_sep sep s :
  contains sep s = false -> last_item (split sep s) = Some s.
Proof. intros H. rewrite (split_no_sep _ _ H). reflexivity. Qed.

(** The last field never contains the separator, and the text either is
    that field or ends with the separator followed by it. *)
Lemma last_item_split_spec sep s :
  exists field,
    last_item (split sep s) = Some field
    /\ contains sep field = false
    /\ ((contains sep s = false /\ field = s)
        \/ exists before, s = before ++ String sep field).
Proof.
  induction s as [|a s (field & Hl & Hf & Hs)].
  - exists "". simpl. auto.
  - rewrite last_item_split_cons, Hl.
    destruct (Ascii.eqb a sep) eqn:Ha.
    + apply Ascii.eqb_eq in Ha. subst a. exists field.
      split; [reflexivity|]. split; [assumption|]. right.
      destruct Hs as [[Hc ->]|[before ->]].
      * exists "". reflexivity.
      * exists (String sep before). reflexivity.
    + destruct Hs as [[Hc ->]|[before ->]].
      * rewrite Hc. exists (String a s). split; [reflexivity|].
        simpl. rewrite Ha, Hc. auto.
      * assert (Hc : contains sep (before ++ String sep field) = true).
        { clear. induction before as [|b before IHb]; simpl.
          - rewrite Ascii.eqb_refl. reflexivity.
          - rewrite IHb. apply orb_true_r. }
        rewrite Hc. exists field. split; [reflexivity|]. split; [assumption|].
        right. exists (String a before). reflexivity.
Qed.

Lemma append_assoc (s t u : string) : (s ++ t) ++ u = s ++ (t ++ u).
Proof.
  induction s as [|a s IH]; [reflexivity|].
  change (String a ((s ++ t) ++ u) = String a (s ++ t ++ u)). congruence.
Qed.

Lemma append_nil_r (s : string) : s ++ "" = s.
Proof.
  induction s as [|a s IH]; [reflexivity|].
  change (String a (s ++ "") = String a s). congruence.
Qed.

Lemma contains_app c s t : contains c (s ++ t) = contains c s || contains c t.
Proof.
  induction s as [|a s IH]; simpl; [reflexivity|].
  rewrite IH. apply orb_assoc.
Qed.

(** Removing [old] leaves every character that does not occur in [old]
    in place.  [pending] is the part of a matched occurrence that is
    still being passed over. *)
Lemma replace_from_keeps c old :
  old <> "" -> contains c old = false ->
  forall s pending,
    startswith pending s = true -> contains c pending = false ->
    contains c (replace_from old "" (String.length pending) s) = contains c s.
Proof.
  intros Hne Hold. induction s as [|a s IH]; intros pending Hp Hc.
  - reflexivity.
  - destruct pending as [|b pending].
    + cbn [String.length replace_from].
      destruct (startswith old (String a s)) eqn:Hst.
      * destruct old as [|b old']; [congruence|].
        simpl in Hst. apply andb_true_iff in Hst as [Hba Hst].
        apply Ascii.eqb_eq in Hba. subst b.
        simpl in Hold. apply orb_false_iff in Hold as [Hac Hold'].
        cbn [String.length]. rewrite Nat.sub_succ, Nat.sub_0_r.
        change ("" ++ ?x) with x. simpl. rewrite Hac. simpl.
        apply IH; assumption.
      * simpl. f_equal. apply (IH ""); reflexivity.
    + simpl in Hp. apply andb_true_iff in Hp as [Hba Hp].
      apply Ascii.eqb_eq in Hba. subst b.
      simpl in Hc. apply orb_false_iff in Hc as [Hac Hc].
      simpl. rewrite Hac. simpl. apply IH; assumption.
Qed.

Lemma replace_keeps c old s :
  old <> "" -> contains c old = false ->
  contains c (replace old "" s) = contains c s.
Proof.
  intros Hne Hold. apply (replace_from_keeps c old Hne Hold s ""); reflexivity.
Qed.

(** A text that has no dot and is followed by [".sql.zip"] comes back
    unchanged when the suffix is removed. *)
Lemma replace_sql_zip_suffix ts :
  contains "." ts = false -> replace ".sql.zip" "" (ts ++ ".sql.zip") = ts.
Proof.
  unfold replace. induction ts as [|a ts IH]; intros H.
  - reflexivity.
  - simpl in H. apply orb_false_iff in H as [Ha Hts].
    change (String a ts ++ ".sql.zip") with (String a (ts ++ ".sql.zip")).
    cbn [replace_from startswith].
    rewrite Ascii.eqb_sym, Ha. cbn [andb]. f_equal. apply IH, Hts.
Qed.

(** A text without dot has nothing to remove. *)
Lemma replace_sql_zip_no_dot s :
  contains "." s = false -> replace ".sql.zip" "" s = s.
Proof.
  unfold replace. induction s as [|a s IH]; intros H.
  - reflexivity.
  - simpl in H. apply orb_false_iff in H as [Ha Hs].
    cbn [replace_from startswith].
    rewrite Ascii.eqb_sym, Ha. cbn [andb]. f_equal. apply IH, Hs.
Qed.

End PyStrFacts.

Module DatetimeFacts.
Import PyStr Datetime Backup Observe PyStrFacts.

Lemma all_chars_app p s t : all_chars p (s ++ t) = all_chars p s && all_chars p t.
Proof.
  induction s as [|a s IH]; simpl; [reflexivity|].
  rewrite IH. apply andb_assoc.
Qed.

Lemma all_chars_contains p c s :
  all_chars p s = true -> p c = false -> contains c s = false.
Proof.
  induction s as [|a s IH]; simpl; intros Hall Hc; [reflexivity|].
  apply andb_true_iff in Hall as [Ha Hs]. rewrite (IH Hs Hc), orb_false_r.
  destruct (Ascii.eqb a c) eqn:E; [|reflexivity].
  apply Ascii.eqb_eq in E. congruence.
Qed.

Lemma match_alt_sound a :
  Forall cls_allowed a ->
  forall s tok rest, match_alt a s = Some (tok, rest) ->
    s = tok ++ rest /\ all_chars allowed tok = true.
Proof.
  induction 1 as [|p a Hp Ha IH]; intros s tok rest Hm; simpl in Hm.
  - inversion Hm; subst. auto.
  - destruct s as [|c s]; [discriminate|].
    destruct (p c) eqn:Hpc; [|discriminate].
    destruct (match_alt a s) as [[tok' rest']|] eqn:Hrec; [|discriminate].
    inversion Hm; subst. destruct (IH _ _ _ Hrec) as [-> Hall].
    simpl. rewrite (Hp _ Hpc), Hall. auto.
Qed.

Lemma match_groups_sound gs :
  Forall (Forall (Forall cls_allowed)) gs ->
  forall s toks rest, match_groups gs s = Some (toks, rest) ->
    s = cat toks ++ rest
    /\ Forall (fun t => all_chars allowed t = true) toks.
Proof.
  induction 1 as [|g gs Hg Hgs IH]; intros s toks rest Hm.
  - simpl in Hm. inversion Hm; subst. auto.
  - cbn [match_groups] in Hm.
    induction Hg as [|a g Ha Hg IHg]; [discriminate|].
    destruct (match_alt a s) as [[tok r]|] eqn:Halt; [|exact (IHg Hm)].
    destruct (match_groups gs r) as [[toks' r']|] eqn:Hrec; [|exact (IHg Hm)].
    inversion Hm; subst.
    destruct (match_alt_sound a Ha _ _ _ Halt) as [-> Htok].
    destruct (IH _ _ _ Hrec) as [-> Htoks].
    split; [|constructor; assumption].
    simpl. rewrite append_assoc. reflexivity.
Qed.

Lemma all_chars_concat p toks :
  Forall (fun t => all_chars p t = true) toks ->
  all_chars p (cat toks) = true.
Proof.
  induction 1 as [|t toks Ht Hts IH]; [reflexivity|].
  simpl. rewrite all_chars_app, Ht. exact IH.
Qed.

Lemma rng_digit_allowed lo hi :
  (48 <= nat_of_ascii lo)%nat -> (nat_of_ascii hi <= 57)%nat -> cls_allowed (rng lo hi).
Proof.
  intros Hlo Hhi c H. unfold rng in H. apply andb_true_iff in H as [H1 H2].
  apply Nat.leb_le in H1, H2.
  unfold allowed, digit, rng.
  change (nat_of_ascii "0") with 48%nat. change (nat_of_ascii "9") with 57%nat.
  replace ((48 <=? nat_of_ascii c)%nat) with true by (symmetry; apply Nat.leb_le; lia).
  replace ((nat_of_ascii c <=? 57)%nat) with true by (symmetry; apply Nat.leb_le; lia).
  reflexivity.
Qed.

Lemma chr_allowed a : allowed a = true -> cls_allowed (chr a).
Proof. intros Ha c H. apply Ascii.eqb_eq in H. subst. exact Ha. Qed.

Lemma letter_T_allowed : cls_allowed (letter "T" "t").
Proof.
  intros c H. unfold letter in H. apply orb_true_iff in H as [H|H];
    apply Ascii.eqb_eq in H; subst; reflexivity.
Qed.

Lemma format_regex_allowed : Forall (Forall (Forall cls_allowed)) format_regex.
Proof.
  unfold format_regex, re_Y, re_m, re_d, re_H, re_M, re_S, re_lit, digit.
  repeat (constructor;
          try (apply rng_digit_allowed; vm_compute; lia);
          try (apply chr_allowed; reflexivity);
          try apply letter_T_allowed).
Qed.

(** A text that parses consists of digits, dashes, colons, blanks and the
    letter T only. *)
Lemma strptime_chars s d : strptime s = Some d -> all_chars allowed s = true.
Proof.
  unfold strptime. intros H.
  destruct (match_groups format_regex s) as [[toks rest]|] eqn:Hm; [|discriminate].
  destruct (match_groups_sound _ format_regex_allowed _ _ _ Hm) as [-> Htoks].
  rewrite all_chars_app, (all_chars_concat _ _ Htoks).
  destruct rest; [reflexivity|].
  do 12 (destruct toks as [|? toks]; try discriminate).
Qed.

Lemma strptime_no_char c s d :
  strptime s = Some d -> allowed c = false -> contains c s = false.
Proof. intros H Hc. exact (all_chars_contains _ _ _ (strptime_chars _ _ H) Hc). Qed.

Lemma strptime_contains_none c s :
  allowed c = false -> contains c s = true -> strptime s = None.
Proof.
  intros Hc Hs. destruct (strptime s) as [d|] eqn:E; [|reflexivity].
  rewrite (strptime_no_char c s d E Hc) in Hs. discriminate.
Qed.

(** *** A printed time stamp is read back *)

Lemma match_alt_app a : forall s tok r rest,
  match_alt a s = Some (tok, r) -> match_alt a (s ++ rest) = Some (tok, (r ++ rest)%string).
Proof.
  induction a as [|p a IH]; intros s tok r rest H; simpl in H.
  - inversion H; subst. reflexivity.
  - destruct s as [|c s]; [discriminate|].
    change (String c s ++ rest)%string with (String c (s ++ rest)%string).
    cbn [match_alt]. destruct (p c); [|discriminate].
    destruct (match_alt a s) as [[tok' r']|] eqn:Hrec; [|discriminate].
    inversion H; subst. rewrite (IH _ _ _ rest Hrec). reflexivity.
Qed.

Lemma match_alt_app_none a : forall s rest,
  match_alt a s = None -> (length a <= String.length s)%nat ->
  match_alt a (s ++ rest) = None.
Proof.
  induction a as [|p a IH]; intros s rest H Hlen; simpl in H; [discriminate|].
  destruct s as [|c s]; [simpl in Hlen; lia|].
  change (String c s ++ rest)%string with (String c (s ++ rest)%string).
  cbn [match_alt]. destruct (p c); [|reflexivity].
  destruct (match_alt a s) as [[tok' r']|] eqn:Hrec; [discriminate|].
  rewrite (IH s rest Hrec); [reflexivity|]. simpl in Hlen. lia.
Qed.

Lemma first_alt_app g : forall s tok r rest,
  first_alt g s = Some (tok, r) ->
  forallb (fun a => (length a <=? String.length s)%nat) g = true ->
  first_alt g (s ++ rest) = Some (tok, (r ++ rest)%string).
Proof.
  induction g as [|a g IH]; intros s tok r rest H Hlen; simpl in H; [discriminate|].
  cbn [forallb] in Hlen. apply andb_true_iff in Hlen as [Ha Hg]. apply Nat.leb_le in Ha.
  cbn [first_alt]. destruct (match_alt a s) as [[tok' r']|] eqn:Halt.
  - inversion H; subst. rewrite (match_alt_app _ _ _ _ rest Halt). reflexivity.
  - rewrite (match_alt_app_none _ _ rest Halt Ha). apply IH; assumption.
Qed.

(** When the first matching alternative of a group lets the remaining
    groups match, that is the match found. *)
Lemma match_groups_field g gs s tok rest toks r :
  first_alt g s = Some (tok, rest) ->
  match_groups gs rest = Some (toks, r) ->
  match_groups (g :: gs) s = Some (tok :: toks, r).
Proof.
  intros Hfirst Hrest. cbn [match_groups].
  induction g as [|a g IH]; simpl in Hfirst; [discriminate|].
  destruct (match_alt a s) as [[tok' r']|] eqn:Halt.
  - inversion Hfirst; subst. rewrite Hrest. reflexivity.
  - apply IH, Hfirst.
Qed.

Lemma numbers_In lo hi v : lo <= v <= hi -> In v (numbers lo hi).
Proof.
  intros Hv. unfold numbers. apply in_map_iff. exists (Z.to_nat (v - lo)).
  split; [lia|]. apply in_seq. lia.
Qed.

Lemma field_ok_range g w lo hi :
  forallb (field_ok g w) (numbers lo hi) = true ->
  forall v, lo <= v <= hi -> field_ok g w v = true.
Proof.
  intros H v Hv. rewrite forallb_forall in H. apply H, numbers_In, Hv.
Qed.

(** What [field_ok] gives: the group reads the printed number, whatever
    follows it. *)
Lemma field_ok_spec g w v :
  field_ok g w v = true ->
  py_int (zfill w v) = Some v
  /\ forall gs rest toks r,
       match_groups gs rest = Some (toks, r) ->
       match_groups (g :: gs) (zfill w v ++ rest) = Some (zfill w v :: toks, r).
Proof.
  unfold field_ok. intros H.
  destruct (first_alt g (zfill w v)) as [[tok [|c r']]|] eqn:Hfirst; try discriminate.
  apply andb_true_iff in H as [H Hlen]. apply andb_true_iff in H as [Htok Hint].
  apply String.eqb_eq in Htok. subst tok. split.
  - destruct (py_int (zfill w v)) as [n|]; [|discriminate].
    apply Z.eqb_eq in Hint. congruence.
  - intros gs rest toks r Hrest.
    apply (match_groups_field g gs _ (zfill w v) rest); [|exact Hrest].
    apply (first_alt_app g _ _ _ rest Hfirst Hlen).
Qed.

Lemma year_ok v : 1 <= v <= 9999 -> field_ok re_Y 4 v = true.
Proof.
  intros Hv. apply (field_ok_range re_Y 4 1 9999); [vm_compute; reflexivity|lia].
Qed.

Lemma month_ok v : 1 <= v <= 12 -> field_ok re_m 2 v = true.
Proof.
  intros Hv. apply (field_ok_range re_m 2 1 12); [vm_compute; reflexivity|lia].
Qed.

Lemma day_ok v : 1 <= v <= 31 -> field_ok re_d 2 v = true.
Proof.
  intros Hv. apply (field_ok_range re_d 2 1 31); [vm_compute; reflexivity|lia].
Qed.

Lemma hour_ok v : 0 <= v <= 23 -> field_ok re_H 2 v = true.
Proof.
  intros Hv. apply (field_ok_range re_H 2 0 23); [vm_compute; reflexivity|lia].
Qed.

Lemma minute_ok v : 0 <= v <= 59 -> field_ok re_M 2 v = true.
Proof.
  intros Hv. apply (field_ok_range re_M 2 0 59); [vm_compute; reflexivity|lia].
Qed.

Lemma second_ok v : 0 <= v <= 59 -> field_ok re_S 2 v = true.
Proof.
  intros Hv. apply (field_ok_range re_S 2 0 59); [vm_compute; reflexivity|lia].
Qed.

Lemma days_in_month_le y m : 1 <= m <= 12 -> days_in_month y m <= 31.
Proof.
  intros Hm. unfold days_in_month.
  destruct ((m =? 2) && is_leap y); [lia|].
  assert (Hcases : In m (numbers 1 12)) by (apply numbers_In; lia).
  vm_compute in Hcases.
  repeat (destruct Hcases as [<-|Hcases]; [vm_compute; discriminate|]). destruct Hcases.
Qed.

(** A literal of the format in front of the remaining groups. *)
Lemma match_groups_literal (p : cls) c gs rest toks r :
  p c = true ->
  match_groups gs rest = Some (toks, r) ->
  match_groups (re_lit p :: gs) (String c rest) = Some (String c "" :: toks, r).
Proof.
  intros Hp Hrest. cbn [match_groups re_lit match_alt]. rewrite Hp, Hrest. reflexivity.
Qed.

(** Parsing what [strftime] printed gives the date back, to the second. *)
Lemma strptime_strftime d :
  valid_fields d = true -> strptime (strftime d) = Some (to_the_second d).
Proof.
  unfold valid_fields, check_fields. intros H.
  repeat (apply andb_true_iff in H as [H ?]).
  repeat match goal with
         | Hle : (_ <=? _) = true |- _ => apply Z.leb_le in Hle
         end.
  unfold MINYEAR, MAXYEAR in *.
  assert (Hd31 : day d <= 31) by (pose proof (days_in_month_le (year d) (month d)); lia).
  destruct (field_ok_spec _ _ _ (year_ok (year d) ltac:(lia))) as [HiY HgY].
  destruct (field_ok_spec _ _ _ (month_ok (month d) ltac:(lia))) as [Him Hgm].
  destruct (field_ok_spec _ _ _ (day_ok (day d) ltac:(lia))) as [Hid Hgd].
  destruct (field_ok_spec _ _ _ (hour_ok (hour d) ltac:(lia))) as [HiH HgH].
  destruct (field_ok_spec _ _ _ (minute_ok (minute d) ltac:(lia))) as [HiM HgM].
  destruct (field_ok_spec _ _ _ (second_ok (second d) ltac:(lia))) as [HiS HgS].
  assert (Hmatch :
    match_groups format_regex (strftime d)
    = Some ([zfill 4 (year d); "-"; zfill 2 (month d); "-"; zfill 2 (day d); "T";
             zfill 2 (hour d); ":"; zfill 2 (minute d); ":"; zfill 2 (second d)]%string,
            ""%string)).
  { unfold format_regex, strftime.
    apply HgY. apply match_groups_literal; [reflexivity|].
    apply Hgm. apply match_groups_literal; [reflexivity|].
    apply Hgd. apply match_groups_literal; [reflexivity|].
    apply HgH. apply match_groups_literal; [reflexivity|].
    apply HgM. apply match_groups_literal; [reflexivity|].
    pose proof (HgS [] ""%string [] ""%string eq_refl) as HS.
    rewrite append_nil_r in HS. exact HS. }
  unfold strptime. rewrite Hmatch, HiY, Him, Hid, HiH, HiM, HiS.
  unfold check_fields, MINYEAR, MAXYEAR.
  repeat match goal with
         | Hle : _ <= _ |- _ => apply Z.leb_le in Hle; rewrite Hle; clear Hle
         end.
  reflexivity.
Qed.

End DatetimeFacts.

(* ===================================================================== *)
(** ** Facts about the script *)
(* ===================================================================== *)

Module BackupFacts.
Import PyStr Datetime Backup Observe PyStrFacts DatetimeFacts.
Local Open Scope backup_scope.
Local Open Scope list_scope.

Lemma new_events_app w w' evs : trace w' = trace w ++ evs -> new_events w w' = evs.
Proof. intros H. unfold new_events. rewrite H. apply drop_app_length. Qed.

Lemma new_log_app w w' lines : log w' = log w ++ lines -> new_log w w' = lines.
Proof. intros H. unfold new_log. rewrite H. apply drop_app_length. Qed.

(** Unfold the monad and the world updates down to records. *)
Ltac run :=
  unfold logging, lift_opt, bind, ret, raise, modify, gets, tick, try_except,
    add_event, next_tick, set_fs, set_bucket, add_log in *;
  cbn [fs bucket log trace ticks fst snd] in *.

Section Runs.

Variable cfg : config.
Variable env : environment.

Lemma backup_date_str_some key : exists s, backup_date_str key = Some s.
Proof.
  unfold backup_date_str.
  destruct (last_item_split_spec "_" key) as (field & -> & _). eauto.
Qed.

Lemma backup_date_of_run obj w :
  exists lines,
    backup_date_of obj w
    = (Ok (backup_date obj),
       mkworld (fs w) (bucket w) (log w ++ lines) (trace w) (ticks w))
    /\ Forall is_info lines
    /\ (unparsable (Key obj) -> exists msg, lines = [(INFO, msg)]).
Proof.
  unfold backup_date_of, backup_date, unparsable, try_except, bind, lift_opt.
  destruct (backup_date_str (Key obj)) as [s|] eqn:Hs.
  - cbn [ret]. destruct (strptime s) as [d|] eqn:Hd.
    + exists []. rewrite app_nil_r. destruct w. cbn. repeat split; [constructor|discriminate].
    + eexists [_]. cbn. repeat split; [repeat constructor|eauto].
  - eexists [_]. cbn. repeat split; [repeat constructor|eauto].
Qed.

Lemma collect_old_run rd objs : forall acc w,
  exists lines,
    collect_old rd objs acc w
    = (Ok (acc ++ old_keys rd objs),
       mkworld (fs w) (bucket w) (log w ++ lines) (trace w) (ticks w))
    /\ Forall is_info lines.
Proof.
  induction objs as [|obj objs IH]; intros acc w.
  - exists []. rewrite !app_nil_r. destruct w. cbn. split; [reflexivity|constructor].
  - cbn [collect_old]. unfold bind at 1.
    destruct (backup_date_of_run obj w) as (l1 & -> & Hl1 & _).
    unfold old_keys. cbn [List.filter].
    destruct (lt (backup_date obj) rd).
    + destruct (IH (acc ++ [Key obj])
                  (mkworld (fs w) (bucket w) (log w ++ l1) (trace w) (ticks w)))
        as (l2 & -> & Hl2).
      exists (l1 ++ l2). cbn. rewrite <- !app_assoc. split; [reflexivity|].
      apply Forall_app; auto.
    + destruct (IH acc
                  (mkworld (fs w) (bucket w) (log w ++ l1) (trace w) (ticks w)))
        as (l2 & -> & Hl2).
      exists (l1 ++ l2). cbn. rewrite <- !app_assoc. split; [reflexivity|].
      apply Forall_app; auto.
Qed.

Lemma delete_run_split keys : forall n done f,
  delete_run env n keys = (done, f) ->
  match f with
  | None => done = keys
  | Some (k, e) => exists rest, keys = done ++ k :: rest
                   /\ delete_fault env (n + length done) k = Some e
  end.
Proof.
  induction keys as [|k keys IH]; intros n done f H; simpl in H.
  - inversion H; subst. reflexivity.
  - destruct (delete_fault env n k) as [e|] eqn:Hk.
    + inversion H; subst. exists keys. simpl. rewrite Nat.add_0_r. auto.
    + destruct (delete_run env (S n) keys) as [done' f'] eqn:Hrun.
      inversion H; subst. specialize (IH _ _ _ Hrun).
      destruct f as [[k' e]|].
      * destruct IH as (rest & -> & He). exists rest. split; [reflexivity|].
        simpl. rewrite <- He. f_equal. lia.
      * subst. reflexivity.
Qed.

Lemma delete_each_run keys : forall w done f,
  delete_run env (ticks w) keys = (done, f) ->
  delete_each env keys w
  = (delete_result f,
     mkworld (fs w) (remove_keys done (bucket w))
       (log w ++ map deleted_line done)
       (trace w ++ map (fun k => EvDelete k true) done ++ failed_event f)
       (ticks w + length done + length (failed_event f))).
Proof.
  induction keys as [|k keys IH]; intros w done f H; simpl in H.
  - inversion H; subst. destruct w. cbn. rewrite !app_nil_r, !Nat.add_0_r. reflexivity.
  - cbn [delete_each]. unfold bind at 1. unfold s3_delete_object at 1.
    unfold bind at 1. unfold tick at 1.
    destruct (delete_fault env (ticks w) k) as [e|] eqn:Hk.
    + inversion H; subst. run. cbn. rewrite app_nil_r. do 2 f_equal. lia.
    + destruct (delete_run env (S (ticks w)) keys) as [done' f'] eqn:Hrun.
      inversion H; subst. run.
      erewrite IH by (cbn; exact Hrun). cbn.
      rewrite <- !app_assoc. cbn. do 2 f_equal. lia.
Qed.

(** *** The three ways a pruning call can go *)

Lemma objects_list_response b : objects (list_response cfg b) = listing (prefix cfg) b.
Proof. unfold objects, list_response. destruct (listing (prefix cfg) b); reflexivity. Qed.

(** the retention date cannot be computed: nothing is listed *)
Lemma prune_overflow w :
  sub_days (clock env (ticks w)) retention_days = None ->
  delete_old_backups cfg env w
  = (Ok tt,
     mkworld (fs w) (bucket w) (log w ++ [prune_error_line OverflowError])
       (trace w) (S (ticks w))).
Proof.
  intros H. unfold delete_old_backups, datetime_now. run. rewrite H. reflexivity.
Qed.

(** the listing call is refused: nothing is deleted *)
Lemma prune_list_refused w cutoff e :
  sub_days (clock env (ticks w)) retention_days = Some cutoff ->
  list_fault env (S (ticks w)) (prefix cfg) = Some e ->
  delete_old_backups cfg env w
  = (Ok tt,
     mkworld (fs w) (bucket w) (log w ++ [prune_error_line e])
       (trace w ++ [EvList (prefix cfg) None]) (S (S (ticks w)))).
Proof.
  intros H He. unfold delete_old_backups, datetime_now, s3_list_objects_v2. run.
  rewrite H. run. fold (prefix cfg). rewrite He. reflexivity.
Qed.

(** the listing call answers: the old keys are queued and deleted one
    after the other up to the first refusal *)
Lemma prune_listed w cutoff done f :
  sub_days (clock env (ticks w)) retention_days = Some cutoff ->
  list_fault env (S (ticks w)) (prefix cfg) = None ->
  delete_run env (S (S (ticks w))) (old_keys cutoff (listing (prefix cfg) (bucket w))) = (done, f) ->
  exists lines,
    Forall is_info lines
    /\ (listing (prefix cfg) (bucket w) = [] -> lines = [])
    /\ delete_old_backups cfg env w
       = (Ok tt,
          mkworld (fs w) (remove_keys done (bucket w))
            (log w ++ lines ++ map deleted_line done ++ failed_line f)
            (trace w ++ EvList (prefix cfg) (Some (list_response cfg (bucket w)))
                     :: map (fun k => EvDelete k true) done ++ failed_event f)
            (S (S (ticks w)) + length done + length (failed_event f))).
Proof.
  intros H Hl Hrun.
  unfold delete_old_backups, datetime_now, s3_list_objects_v2. run.
  rewrite H. run. fold (prefix cfg). rewrite Hl. run.
  fold (prefix cfg). fold (list_response cfg (bucket w)).
  set (w1 := mkworld (fs w) (bucket w) (log w)
               (trace w ++ [EvList (prefix cfg) (Some (list_response cfg (bucket w)))])
               (S (S (ticks w)))).
  assert (Hq : exists lines, Forall is_info lines /\
            (listing (prefix cfg) (bucket w) = [] -> lines = []) /\
            (match Contents (list_response cfg (bucket w)) with
             | Some objs => collect_old cutoff objs []
             | None => fun w => (Ok [], w)
             end) w1
            = (Ok (old_keys cutoff (listing (prefix cfg) (bucket w))),
               mkworld (fs w1) (bucket w1) (log w1 ++ lines) (trace w1) (ticks w1))).
  { unfold list_response. destruct (listing (prefix cfg) (bucket w)) as [|o objs] eqn:Hobjs.
    - exists []. split; [constructor|]. split; [reflexivity|].
      cbn. rewrite app_nil_r. reflexivity.
    - destruct (collect_old_run cutoff (o :: objs) [] w1) as (lines & Heq & Hlines).
      exists lines. split; [exact Hlines|]. split; [discriminate|].
      cbn [Contents]. exact Heq. }
  destruct Hq as (lines & Hlines & Hnil & ->).
  exists lines. split; [exact Hlines|]. split; [exact Hnil|].
  erewrite delete_each_run by (cbn; exact Hrun).
  subst w1. cbn. destruct f as [[k e]|]; cbn;
    rewrite <- ?app_assoc, ?app_nil_r; reflexivity.
Qed.

(** Whatever happens, the pruning call returns normally, and the calls
    it makes are listing and delete calls only. *)
Lemma delete_old_backups_total w :
  exists w' evs,
    delete_old_backups cfg env w = (Ok tt, w')
    /\ trace w' = trace w ++ evs
    /\ Forall is_prune_call evs.
Proof.
  destruct (sub_days (clock env (ticks w)) retention_days) as [cutoff|] eqn:Hc.
  - destruct (list_fault env (S (ticks w)) (prefix cfg)) as [e|] eqn:Hl.
    + rewrite (prune_list_refused w cutoff e Hc Hl).
      do 2 eexists. cbn. repeat split. repeat constructor.
    + destruct (delete_run env (S (S (ticks w))) (old_keys cutoff (listing (prefix cfg) (bucket w))))
        as [done f] eqn:Hrun.
      destruct (prune_listed w cutoff done f Hc Hl Hrun) as (lines & _ & _ & ->).
      do 2 eexists. cbn. repeat split. constructor; [exact I|].
      apply Forall_app. split.
      * apply Forall_forall. intros ev Hev. apply list_elem_of_In, in_map_iff in Hev.
        destruct Hev as (k & <- & _). exact I.
      * destruct f as [[k e]|]; repeat constructor.
  - rewrite (prune_overflow w Hc). eexists _, []. cbn. rewrite app_nil_r.
    repeat split. constructor.
Qed.

End Runs.

(** *** The listing and the bucket *)

Lemma In_firstn {A} (x : A) n l : In x (firstn n l) -> In x l.
Proof.
  revert l. induction n as [|n IH]; intros [|a l]; simpl; try tauto.
  intros [->|H]; auto.
Qed.

Lemma NoDup_map_filter {A B} (g : A -> B) p l :
  NoDup (map g l) -> NoDup (map g (List.filter p l)).
Proof.
  induction l as [|a l IH]; simpl; intros H; [constructor|].
  apply NoDup_cons in H as [Ha Hl]. destruct (p a); simpl; [|auto].
  apply NoDup_cons. split; [|auto].
  rewrite list_elem_of_In in *. intros Hin. apply Ha.
  apply in_map_iff in Hin as (y & Hy & Hin). apply filter_In in Hin as [Hin _].
  apply in_map_iff. eauto.
Qed.

Lemma NoDup_map_firstn {A B} (g : A -> B) n l :
  NoDup (map g l) -> NoDup (map g (firstn n l)).
Proof.
  revert l. induction n as [|n IH]; intros [|a l]; simpl; intros H; try constructor.
  - apply NoDup_cons in H as [Ha Hl].
    rewrite list_elem_of_In in *. intros Hin. apply Ha.
    apply in_map_iff in Hin as (y & Hy & Hin). apply In_firstn in Hin.
    apply in_map_iff. eauto.
  - apply NoDup_cons in H as [_ Hl]. auto.
Qed.

Lemma listing_entries pre b :
  listing pre b = map (fun kv => mkobj kv.1 (modified kv.2)) (listed_entries pre b).
Proof. reflexivity. Qed.

(** Every listed object is in the bucket under its key, with the time
    stamp the listing reports, and its key starts with the prefix. *)
Lemma listing_lookup pre b o :
  In o (listing pre b) ->
  exists e, b !! Key o = Some e /\ modified e = LastModified o
            /\ startswith pre (Key o) = true.
Proof.
  rewrite listing_entries. intros H.
  apply in_map_iff in H as ([k e] & <- & H). unfold listed_entries in H.
  apply In_firstn, filter_In in H as [H Hpre].
  apply list_elem_of_In in H. rewrite merge_sort_Permutation in H.
  apply elem_of_map_to_list in H. exists e. auto.
Qed.

(** No key is listed twice. *)
Lemma listing_NoDup pre b : NoDup (map Key (listing pre b)).
Proof.
  rewrite listing_entries, map_map. cbn [Key].
  apply NoDup_map_firstn, NoDup_map_filter.
  change (NoDup ((merge_sort key_le (map_to_list b)).*1)).
  rewrite merge_sort_Permutation. apply NoDup_fst_map_to_list.
Qed.

Lemma NoDup_map_inj {A B} (g : A -> B) l x y :
  NoDup (map g l) -> In x l -> In y l -> g x = g y -> x = y.
Proof.
  induction l as [|a l IH]; simpl; intros H Hx Hy Hg; [contradiction|].
  apply NoDup_cons in H as [Ha Hl]. rewrite list_elem_of_In in Ha.
  destruct Hx as [->|Hx], Hy as [->|Hy]; auto.
  - exfalso. apply Ha. rewrite Hg. apply in_map. exact Hy.
  - exfalso. apply Ha. rewrite <- Hg. apply in_map. exact Hx.
Qed.

Lemma remove_keys_in ks : forall (b : gmap string s3entry) k,
  In k ks -> remove_keys ks b !! k = None.
Proof.
  unfold remove_keys.
  induction ks as [|a ks IH]; simpl; intros b k H; [contradiction|].
  destruct (in_dec string_dec k ks) as [Hin|Hnin]; [auto|].
  destruct H as [->|H]; [|contradiction].
  clear IH. revert b. induction ks as [|c ks IH]; simpl; intros b.
  - apply lookup_delete_eq.
  - rewrite delete_delete. apply IH. simpl in Hnin. tauto.
Qed.

Lemma remove_keys_notin ks : forall (b : gmap string s3entry) k,
  ~ In k ks -> remove_keys ks b !! k = b !! k.
Proof.
  unfold remove_keys.
  induction ks as [|a ks IH]; simpl; intros b k H; [reflexivity|].
  rewrite IH by tauto. apply lookup_delete_ne. intros ->. tauto.
Qed.

(** *** Dumping and uploading *)

Lemma append_zip_neq (s : string) : (s ++ ".zip")%string <> s.
Proof.
  induction s as [|a s IH]; [discriminate|].
  change (String a (s ++ ".zip")%string <> String a s). congruence.
Qed.

Lemma append_zip_nonempty (s : string) : String.eqb (s ++ ".zip") "" = false.
Proof. destruct s; reflexivity. Qed.

Section Stages.

Variable cfg : config.
Variable env : environment.

(** The dump command exits with status 0 and the archive is written:
    the function returns the archive path; the archive holds the dump
    under its base name and the dump file is gone. *)
Lemma dump_database_ok db w data :
  let backup_file := backup_file_path cfg db (clock env (ticks w)) in
  let cmd := dump_command cfg db backup_file in
  let compressed_file := (backup_file ++ ".zip")%string in
  mysqldump env (S (ticks w)) cmd = DumpOk data ->
  zipper env (S (S (ticks w))) compressed_file = ZipOk ->
  dump_database cfg env db w
  = (Ok (Some compressed_file),
     mkworld
       (delete backup_file
          (<[compressed_file := Archive [(basename backup_file, Raw data)]]>
             (<[compressed_file := Archive []]>
                (<[backup_file := Raw data]> (fs w)))))
       (bucket w) (log w ++ [dump_ok_line db])
       (trace w ++ [EvShell cmd true]) (S (S (S (ticks w))))).
Proof.
  intros bf cmd zf Hd Hz.
  unfold dump_database, datetime_now, subprocess_run, zip_write, os_remove. run.
  fold bf. fold cmd. rewrite Hd. run. fold zf. rewrite Hz. run.
  rewrite lookup_insert_ne by (apply append_zip_neq).
  rewrite lookup_insert_eq. run.
  rewrite lookup_insert_ne by (apply append_zip_neq).
  rewrite lookup_insert_ne by (apply append_zip_neq).
  rewrite lookup_insert_eq. reflexivity.
Qed.

(** Whatever happens, [dump_database] returns; it leaves the bucket
    alone, runs exactly one shell command, and when it returns a path
    that path is the archive's. *)
Lemma dump_database_total db w :
  let backup_file := backup_file_path cfg db (clock env (ticks w)) in
  let cmd := dump_command cfg db backup_file in
  exists r w' ok lines,
    dump_database cfg env db w = (Ok r, w')
    /\ bucket w' = bucket w
    /\ trace w' = trace w ++ [EvShell cmd ok]
    /\ log w' = log w ++ lines
    /\ match r with
       | Some p =>
           p = (backup_file ++ ".zip")%string /\ lines = [dump_ok_line db]
           /\ exists data,
                mysqldump env (S (ticks w)) cmd = DumpOk data
                /\ zipper env (S (S (ticks w))) (backup_file ++ ".zip")%string = ZipOk
       | None => exists e, lines = [dump_error_line db e]
       end.
Proof.
  intros bf cmd.
  destruct (mysqldump env (S (ticks w)) cmd) as [data|partial e] eqn:Hd.
  - destruct (zipper env (S (S (ticks w))) (bf ++ ".zip")%string) as [|e|e] eqn:Hz.
    + rewrite (dump_database_ok db w data Hd Hz).
      do 4 eexists. cbn. repeat split; eauto.
    + unfold dump_database, datetime_now, subprocess_run, zip_write, os_remove. run.
      fold bf. fold cmd. rewrite Hd. run. rewrite Hz. run.
      exists None. do 3 eexists. cbn. repeat split; eauto.
    + unfold dump_database, datetime_now, subprocess_run, zip_write, os_remove. run.
      fold bf. fold cmd. rewrite Hd. run. rewrite Hz. run.
      rewrite lookup_insert_ne by (apply append_zip_neq).
      rewrite lookup_insert_eq. run.
      exists None. do 3 eexists. cbn. repeat split; eauto.
  - unfold dump_database, datetime_now, subprocess_run, zip_write, os_remove. run.
    fold bf. fold cmd. rewrite Hd.
    destruct partial as [data|]; run;
      exists None; do 3 eexists; cbn; repeat split; eauto.
Qed.

(** The upload of an existing file goes through: the bucket holds the
    file under the computed key and the local file is removed. *)
Lemma upload_to_s3_ok file_path w f :
  let key := s3_path cfg (basename file_path) in
  fs w !! file_path = Some f ->
  upload_fault env (ticks w) file_path key = None ->
  upload_to_s3 cfg env file_path w
  = (Ok tt,
     mkworld (delete file_path (fs w))
       (<[key := mkentry f (s3_clock env (ticks w))]> (bucket w))
       (log w ++ [upload_ok_line cfg (basename file_path)])
       (trace w ++ [EvUpload file_path key true]) (S (ticks w))).
Proof.
  intros key Hf Hu. unfold upload_to_s3, s3_upload_file, os_remove. run.
  rewrite Hf. fold key. rewrite Hu. run. rewrite Hf. reflexivity.
Qed.

(** The upload of an existing file is refused: nothing changes but the
    log and the trace. *)
Lemma upload_to_s3_refused file_path w f e :
  let key := s3_path cfg (basename file_path) in
  fs w !! file_path = Some f ->
  upload_fault env (ticks w) file_path key = Some e ->
  upload_to_s3 cfg env file_path w
  = (Ok tt,
     mkworld (fs w) (bucket w)
       (log w ++ [upload_error_line (basename file_path) e])
       (trace w ++ [EvUpload file_path key false]) (S (ticks w))).
Proof.
  intros key Hf Hu. unfold upload_to_s3, s3_upload_file, os_remove. run.
  rewrite Hf. fold key. rewrite Hu. reflexivity.
Qed.

(** The file to upload does not exist: the call raises inside the
    library and the error is logged. *)
Lemma upload_to_s3_missing file_path w :
  let key := s3_path cfg (basename file_path) in
  fs w !! file_path = None ->
  upload_to_s3 cfg env file_path w
  = (Ok tt,
     mkworld (fs w) (bucket w)
       (log w ++ [upload_error_line (basename file_path) (FileNotFoundError file_path)])
       (trace w ++ [EvUpload file_path key false]) (S (ticks w))).
Proof.
  intros key Hf. unfold upload_to_s3, s3_upload_file, os_remove. run.
  rewrite Hf. reflexivity.
Qed.

Lemma upload_to_s3_total file_path w :
  exists w' ok line,
    upload_to_s3 cfg env file_path w = (Ok tt, w')
    /\ trace w' = trace w ++ [EvUpload file_path (s3_path cfg (basename file_path)) ok]
    /\ log w' = log w ++ [line]
    /\ (ok = false -> line.1 = ERROR /\ fs w' = fs w /\ bucket w' = bucket w).
Proof.
  destruct (fs w !! file_path) as [f|] eqn:Hf.
  - destruct (upload_fault env (ticks w) file_path (s3_path cfg (basename file_path)))
      as [e|] eqn:Hu.
    + rewrite (upload_to_s3_refused _ _ _ _ Hf Hu).
      do 3 eexists. cbn. repeat split; reflexivity.
    + rewrite (upload_to_s3_ok _ _ _ Hf Hu).
      do 3 eexists. cbn. repeat split; try reflexivity; discriminate.
  - rewrite (upload_to_s3_missing _ _ Hf).
    do 3 eexists. cbn. repeat split; reflexivity.
Qed.

(** *** The loop over the databases *)

Lemma shell_cmds_app evs1 evs2 :
  shell_cmds (evs1 ++ evs2) = shell_cmds evs1 ++ shell_cmds evs2.
Proof. unfold shell_cmds. apply flat_map_app. Qed.

Lemma backup_each_run dbs : forall acc w,
  exists gen w' evs lines,
    backup_each cfg env dbs acc w = (Ok (acc ++ gen), w')
    /\ trace w' = trace w ++ evs
    /\ log w' = log w ++ lines
    /\ Forall (fun ev => ~ is_prune_call ev) evs
    /\ Forall2 (dumps cfg) dbs (shell_cmds evs)
    /\ (all_dumps_fail cfg env dbs w = true ->
        gen = [] /\ Forall is_shell evs /\ bucket w' = bucket w /\ Forall is_error lines)
    /\ (all_dumps_fail cfg env dbs w = false -> gen <> []).
Proof.
  induction dbs as [|db dbs IH]; intros acc w.
  - exists [], w, [], []. cbn. rewrite !app_nil_r.
    repeat split; try constructor; discriminate.
  - cbn [backup_each all_dumps_fail]. unfold bind at 1.
    destruct (dump_database_total db w)
      as (r & w1 & ok & lines1 & -> & Hb1 & Ht1 & Hl1 & Hr).
    destruct r as [p|].
    + destruct Hr as (-> & -> & _). unfold truthy. rewrite append_zip_nonempty. cbn [negb].
      unfold bind at 1.
      destruct (upload_to_s3_total
                  (backup_file_path cfg db (clock env (ticks w)) ++ ".zip")%string w1)
        as (w2 & ok2 & line2 & -> & Ht2 & Hl2 & _).
      destruct (IH (acc ++ [(backup_file_path cfg db (clock env (ticks w)) ++ ".zip")%string]) w2)
        as (gen & w' & evs & lines & -> & Ht & Hl & Hev & Hcmds & _ & _).
      eexists (_ :: gen), w', (_ :: _ :: evs), (_ :: _ :: lines).
      rewrite <- app_assoc. split; [reflexivity|].
      rewrite Ht, Ht2, Ht1, Hl, Hl2, Hl1, <- !app_assoc. cbn.
      repeat split; try discriminate.
      * repeat constructor; auto.
      * constructor; [eexists; reflexivity|exact Hcmds].
    + destruct Hr as [e ->].
      destruct (IH acc w1) as (gen & w' & evs & lines & -> & Ht & Hl & Hev & Hcmds & Hfail & Hgen).
      exists gen, w', (EvShell (dump_command cfg db (backup_file_path cfg db (clock env (ticks w)))) ok :: evs),
        (dump_error_line db e :: lines).
      rewrite Ht, Ht1, Hl, Hl1, <- !app_assoc. cbn.
      repeat split; auto.
      * constructor; [eexists; reflexivity|exact Hcmds].
      * apply Hfail; assumption.
      * constructor; [exact I|]. apply Hfail; assumption.
      * rewrite <- Hb1. apply Hfail; assumption.
      * constructor; [reflexivity|]. apply Hfail; assumption.
Qed.

End Stages.

End BackupFacts.

(* ===================================================================== *)
(** ** The properties of the specification *)
(* ===================================================================== *)

Import PyStr Datetime Backup Observe Examples PyStrFacts DatetimeFacts BackupFacts.
Local Open Scope list_scope.

(** *** Retention pruner *)

(** A key [pre_ts.sql.zip] whose part after the last underscore is a
    valid time stamp gives that time stamp back. *)
Lemma backup_date_str_suffix pre ts d :
  contains "_" ts = false -> strptime ts = Some d ->
  backup_date_str (pre ++ "_" ++ ts ++ ".sql.zip")%string = Some ts.
Proof.
  intros Hu Hd. unfold backup_date_str.
  assert (Hf : contains "_" (ts ++ ".sql.zip")%string = false).
  { rewrite contains_app, Hu. reflexivity. }
  change (pre ++ "_" ++ ts ++ ".sql.zip")%string
    with (pre ++ String "_" (ts ++ ".sql.zip"))%string.
  rewrite (last_item_split_app "_" pre _ Hf).
  rewrite replace_sql_zip_suffix; [reflexivity|].
  apply (strptime_no_char "." ts d Hd). reflexivity.
Qed.

Lemma backup_date_embedded pre ts d lm :
  contains "_" ts = false -> strptime ts = Some d ->
  backup_date (mkobj (pre ++ "_" ++ ts ++ ".sql.zip")%string lm) = d.
Proof.
  intros Hu Hd. unfold backup_date. cbn [Key].
  rewrite (backup_date_str_suffix pre ts d Hu Hd), Hd. reflexivity.
Qed.

(** What a pruning call that got a listing and met no refused delete
    has done. *)
Lemma prune_listed_inv cfg env w resp :
  let w' := (delete_old_backups cfg env w).2 in
  In (EvList (AWS_S3_BACKUP_FOLDER cfg) (Some resp)) (new_events w w') ->
  exists cutoff done f lines,
    sub_days (clock env (ticks w)) retention_days = Some cutoff
    /\ resp = list_response cfg (bucket w)
    /\ delete_run env (S (S (ticks w)))
         (old_keys cutoff (listing (AWS_S3_BACKUP_FOLDER cfg) (bucket w))) = (done, f)
    /\ Forall is_info lines
    /\ (listing (AWS_S3_BACKUP_FOLDER cfg) (bucket w) = [] -> lines = [])
    /\ delete_old_backups cfg env w
       = (Ok tt,
          mkworld (fs w) (remove_keys done (bucket w))
            (log w ++ lines ++ map deleted_line done ++ failed_line f)
            (trace w ++ EvList (AWS_S3_BACKUP_FOLDER cfg) (Some resp)
                     :: map (fun k => EvDelete k true) done ++ failed_event f)
            (S (S (ticks w)) + length done + length (failed_event f))).
Proof.
  intros w' Hin. subst w'.
  destruct (sub_days (clock env (ticks w)) retention_days) as [cutoff|] eqn:Hc.
  - destruct (list_fault env (S (ticks w)) (prefix cfg)) as [e|] eqn:Hl.
    + rewrite (prune_list_refused cfg env w cutoff e Hc Hl) in Hin.
      erewrite new_events_app in Hin by reflexivity.
      destruct Hin as [Hin|[]]. discriminate.
    + destruct (delete_run env (S (S (ticks w)))
                  (old_keys cutoff (listing (prefix cfg) (bucket w)))) as [done f] eqn:Hrun.
      destruct (prune_listed cfg env w cutoff done f Hc Hl Hrun) as (lines & Hi & Hnil & Heq).
      rewrite Heq in Hin. erewrite new_events_app in Hin by reflexivity.
      assert (Hresp : resp = list_response cfg (bucket w)).
      { destruct Hin as [Hin|Hin]; [inversion Hin; reflexivity|].
        apply in_app_or in Hin as [Hin|Hin].
        - apply in_map_iff in Hin as (k & Hk & _). discriminate.
        - destruct f as [[k e]|]; [destruct Hin as [Hin|[]]; discriminate|destruct Hin]. }
      subst resp. exists cutoff, done, f, lines. auto 10.
  - rewrite (prune_overflow cfg env w Hc) in Hin.
    erewrite new_events_app in Hin by (cbn; rewrite app_nil_r; reflexivity).
    destruct Hin.
Qed.

(** C1.  Consider a pruning call whose listing call returned [resp] and
    in which no delete call was refused.  Then the retention date is the
    current time minus 14 days, and for every listed object: it is gone
    from the bucket when its backup date is strictly earlier than the
    retention date, and it is still there, unchanged, otherwise.  Keys
    that were not listed are untouched.  The backup date of an object is
    the date the listing loop computes for it, and for a key
    [pre_ts.sql.zip] with a valid time stamp [ts] it is that time stamp. *)
Theorem delete_old_backups_deletes_exactly_old cfg env w resp :
  let w' := (delete_old_backups cfg env w).2 in
  In (EvList (AWS_S3_BACKUP_FOLDER cfg) (Some resp)) (new_events w w') ->
  (forall k, ~ In (EvDelete k false) (new_events w w')) ->
  exists cutoff,
    sub_days (clock env (ticks w)) 14 = Some cutoff
    /\ (forall o, In o (objects resp) ->
          (forall w0, (backup_date_of o w0).1 = Ok (backup_date o))
          /\ is_Some (bucket w !! Key o)
          /\ (lt (backup_date o) cutoff = true -> bucket w' !! Key o = None)
          /\ (lt (backup_date o) cutoff = false -> bucket w' !! Key o = bucket w !! Key o))
    /\ (forall k, (forall o, In o (objects resp) -> Key o <> k) ->
          bucket w' !! k = bucket w !! k)
    /\ (forall pre ts d lm, contains "_" ts = false -> strptime ts = Some d ->
          backup_date (mkobj (pre ++ "_" ++ ts ++ ".sql.zip")%string lm) = d).
Proof.
  intros w' Hlist Hnofail.
  destruct (prune_listed_inv cfg env w resp Hlist)
    as (cutoff & done & f & lines & Hc & -> & Hrun & _ & _ & Heq).
  assert (Hf : f = None).
  { destruct f as [[k e]|]; [|reflexivity]. exfalso. apply (Hnofail k).
    subst w'. rewrite Heq. erewrite new_events_app by reflexivity.
    right. apply in_or_app. right. left. reflexivity. }
  subst f. pose proof (delete_run_split env _ _ _ _ Hrun) as Hdone. cbn in Hdone.
  subst done. subst w'. rewrite Heq. cbn [snd bucket].
  rewrite objects_list_response. fold (prefix cfg).
  exists cutoff. split; [exact Hc|]. split; [|split].
  - intros o Ho. split; [|split; [|split]].
    + intros w0. destruct (backup_date_of_run o w0) as (l & -> & _). reflexivity.
    + destruct (listing_lookup _ _ _ Ho) as (e & -> & _). eauto.
    + intros Hold. apply remove_keys_in. unfold old_keys.
      apply in_map, filter_In. auto.
    + intros Hnew. apply remove_keys_notin. unfold old_keys. intros Hin.
      apply in_map_iff in Hin as (o' & Hk & Hin). apply filter_In in Hin as [Hin Hold].
      assert (o' = o)
        by (eapply NoDup_map_inj; [apply listing_NoDup|exact Hin|exact Ho|exact Hk]).
      subst o'. change (lt (backup_date o) cutoff = true) in Hold.
      rewrite Hnew in Hold. discriminate.
  - intros k Hk. apply remove_keys_notin. unfold old_keys. intros Hin.
    apply in_map_iff in Hin as (o & Hko & Hin). apply filter_In in Hin as [Hin _].
    exact (Hk o Hin Hko).
  - intros pre ts d lm. apply backup_date_embedded.
Qed.

Lemma delete_old_backups_deletes_exactly_old_witness :
  let w' := (delete_old_backups cfg0 env_ok w_backups).2 in
  bucket w' !! key_may = None
  /\ bucket w' !! key_notes = None
  /\ bucket w' !! key_june = bucket w_backups !! key_june.
Proof.
  destruct (delete_old_backups_deletes_exactly_old cfg0 env_ok w_backups
              (list_response cfg0 some_backups))
    as (cutoff & Hc & Hobjs & _).
  - vm_compute. left. reflexivity.
  - intros k. vm_compute. intuition discriminate.
  - vm_compute in Hc. injection Hc as <-.
    assert (Hin : forall o, In o [obj_may; obj_june; obj_notes] ->
                            In o (objects (list_response cfg0 some_backups))).
    { intros o Ho. vm_compute. exact Ho. }
    split; [|split].
    + apply (Hobjs obj_may); [apply Hin; simpl; auto|]. vm_compute. reflexivity.
    + apply (Hobjs obj_notes); [apply Hin; simpl; auto|]. vm_compute. reflexivity.
    + apply (Hobjs obj_june); [apply Hin; simpl; auto|]. vm_compute. reflexivity.
Defined.

(** C7.  When the listing call of a pruning call returns no object, the
    call returns normally, the listing call is the only call it makes (no
    delete call at all), nothing is logged (so no error is), and the
    bucket and the local files are as before. *)
Theorem delete_old_backups_empty_listing cfg env w resp :
  let r := delete_old_backups cfg env w in
  In (EvList (AWS_S3_BACKUP_FOLDER cfg) (Some resp)) (new_events w r.2) ->
  objects resp = [] ->
  r.1 = Ok tt
  /\ new_events w r.2 = [EvList (AWS_S3_BACKUP_FOLDER cfg) (Some resp)]
  /\ (forall k ok, ~ In (EvDelete k ok) (new_events w r.2))
  /\ new_log w r.2 = []
  /\ bucket r.2 = bucket w
  /\ fs r.2 = fs w.
Proof.
  intros r Hlist Hempty. subst r.
  destruct (prune_listed_inv cfg env w resp Hlist)
    as (cutoff & done & f & lines & Hc & -> & Hrun & _ & Hnil & Heq).
  rewrite objects_list_response in Hempty. fold (prefix cfg) in Hrun, Hnil.
  rewrite Hempty in Hrun. specialize (Hnil Hempty). subst lines.
  cbn in Hrun. injection Hrun as <- <-.
  rewrite Heq. cbn [fst snd bucket fs].
  assert (Hev : new_events w
                  (mkworld (fs w) (remove_keys [] (bucket w))
                     (log w ++ [] ++ map deleted_line [] ++ failed_line None)
                     (trace w ++ EvList (AWS_S3_BACKUP_FOLDER cfg)
                                   (Some (list_response cfg (bucket w)))
                              :: map (fun k => EvDelete k true) [] ++ failed_event None)
                     (S (S (ticks w)) + length (@nil string) + length (failed_event None)))
                = [EvList (AWS_S3_BACKUP_FOLDER cfg) (Some (list_response cfg (bucket w)))]).
  { apply new_events_app. reflexivity. }
  rewrite Hev. repeat split.
  - intros k ok [H|[]]. discriminate.
  - apply new_log_app. cbn. rewrite app_nil_r. reflexivity.
Qed.

Lemma delete_old_backups_empty_listing_witness :
  let r := delete_old_backups cfg0 env_ok w_empty in
  r.1 = Ok tt
  /\ new_events w_empty r.2 = [EvList "backups" (Some (mkresponse None))]
  /\ (forall k ok, ~ In (EvDelete k ok) (new_events w_empty r.2))
  /\ new_log w_empty r.2 = []
  /\ bucket r.2 = bucket w_empty
  /\ fs r.2 = fs w_empty.
Proof.
  apply (delete_old_backups_empty_listing cfg0 env_ok w_empty (mkresponse None)).
  - vm_compute. left. reflexivity.
  - reflexivity.
Defined.

(** C8 fails as stated.  Two old objects are queued, S3 refuses the first
    delete call: the exception leaves the loop, and no delete call is ever
    made for the second object. *)
Lemma delete_error_skips_remaining :
  ~ remaining_deletes_attempted cfg0 env_delete_fails w_backups.
Proof.
  intros H.
  destruct (H (list_response cfg0 some_backups) (mkdt 2024 6 1 12 0 0 250) obj_notes)
    as [ok Hin].
  - vm_compute. left. reflexivity.
  - vm_compute. reflexivity.
  - vm_compute. auto.
  - vm_compute. reflexivity.
  - vm_compute in Hin. destruct Hin as [Hin|[Hin|[]]]; discriminate.
Qed.

Lemma old_keys_NoDup rd objs : NoDup (map Key objs) -> NoDup (old_keys rd objs).
Proof. apply NoDup_map_filter. Qed.

(** C8, amended.  A pruning call never propagates an exception.  When
    its listing call is refused, that is the only call it makes, the
    error is logged and the bucket is left as it was.  When one of its
    delete calls is refused, that call is the last call of the pruning
    call: the queue is [done ++ k :: rest], the keys of [done] were
    deleted before, the error is logged, and the refused key [k] and all
    keys queued after it are still in the bucket, unchanged, with no
    delete call made for those after [k]. *)
Theorem prune_stops_at_first_error cfg env w :
  let r := delete_old_backups cfg env w in
  r.1 = Ok tt
  /\ (In (EvList (AWS_S3_BACKUP_FOLDER cfg) None) (new_events w r.2) ->
      new_events w r.2 = [EvList (AWS_S3_BACKUP_FOLDER cfg) None]
      /\ (exists e, new_log w r.2 = [prune_error_line e])
      /\ bucket r.2 = bucket w)
  /\ (forall k, In (EvDelete k false) (new_events w r.2) ->
      exists resp cutoff done rest e,
        sub_days (clock env (ticks w)) retention_days = Some cutoff
        /\ old_keys cutoff (objects resp) = done ++ k :: rest
        /\ new_events w r.2
           = EvList (AWS_S3_BACKUP_FOLDER cfg) (Some resp)
             :: map (fun k' => EvDelete k' true) done ++ [EvDelete k false]
        /\ last (new_log w r.2) = Some (prune_error_line e)
        /\ bucket r.2 = remove_keys done (bucket w)
        /\ (forall k', In k' (k :: rest) -> bucket r.2 !! k' = bucket w !! k')).
Proof.
  intros r. subst r.
  destruct (sub_days (clock env (ticks w)) retention_days) as [cutoff|] eqn:Hc.
  - destruct (list_fault env (S (ticks w)) (prefix cfg)) as [e|] eqn:Hl.
    + rewrite (prune_list_refused cfg env w cutoff e Hc Hl). cbn [fst snd bucket].
      erewrite new_events_app by reflexivity. erewrite new_log_app by reflexivity.
      split; [reflexivity|]. split; [eauto|].
      intros k [H|[]]. discriminate.
    + destruct (delete_run env (S (S (ticks w)))
                  (old_keys cutoff (listing (prefix cfg) (bucket w)))) as [done f] eqn:Hrun.
      destruct (prune_listed cfg env w cutoff done f Hc Hl Hrun) as (lines & Hi & _ & Heq).
      rewrite Heq. cbn [fst snd bucket].
      erewrite new_events_app by reflexivity. erewrite new_log_app by reflexivity.
      split; [reflexivity|]. split.
      * intros [H|H]; [discriminate|]. exfalso.
        apply in_app_or in H as [H|H].
        -- apply in_map_iff in H as (k & Hk & _). discriminate.
        -- destruct f as [[k e]|]; [destruct H as [H|[]]; discriminate|destruct H].
      * intros k [H|H]; [discriminate|].
        apply in_app_or in H as [H|H].
        { apply in_map_iff in H as (k' & Hk & _). discriminate. }
        destruct f as [[k' e]|]; [|destruct H].
        destruct H as [H|[]]. injection H as ->.
        pose proof (delete_run_split env _ _ _ _ Hrun) as (rest & Hq & _).
        exists (list_response cfg (bucket w)), cutoff, done, rest, e.
        rewrite objects_list_response. fold (prefix cfg).
        split; [reflexivity|]. split; [exact Hq|]. split; [reflexivity|].
        split; [|split; [reflexivity|]].
        -- cbn [failed_line]. rewrite !app_assoc. apply last_snoc.
        -- intros k' Hk'. apply remove_keys_notin. intros Hd.
           pose proof (old_keys_NoDup cutoff _ (listing_NoDup (prefix cfg) (bucket w))) as Hnd.
           rewrite Hq in Hnd. apply NoDup_app in Hnd as (_ & Hdis & _).
           apply (Hdis k'); apply list_elem_of_In; assumption.
  - rewrite (prune_overflow cfg env w Hc). cbn [fst snd bucket].
    erewrite new_events_app by (cbn; rewrite app_nil_r; reflexivity).
    split; [reflexivity|]. split; [intros []|intros k []].
Qed.

Lemma prune_stops_at_first_error_witness :
  let r := delete_old_backups cfg0 env_delete_fails w_backups in
  r.1 = Ok tt
  /\ new_events w_backups r.2
     = [EvList "backups" (Some (list_response cfg0 some_backups)); EvDelete key_may false]
  /\ bucket r.2 !! key_notes = some_backups !! key_notes.
Proof.
  destruct (prune_stops_at_first_error cfg0 env_delete_fails w_backups) as (Hr & _ & Hdel).
  split; [exact Hr|].
  destruct (Hdel key_may) as (resp & cutoff & done & rest & e & Hc & Hq & Hev & _ & _ & Hkeep).
  - vm_compute. right. left. reflexivity.
  - split; [vm_compute; reflexivity|]. vm_compute. reflexivity.
Defined.

(** C4.  For an object whose key yields no parsable time stamp, the date
    the listing loop computes is the object's [LastModified] with its
    time zone dropped: [backup_date_of] catches the parsing error, logs
    it and returns that date, and the loop queues the key exactly when
    that date is strictly earlier than the retention date. *)
Theorem backup_date_fallback_last_modified obj :
  unparsable (Key obj) ->
  backup_date obj = replace_tzinfo_none (LastModified obj)
  /\ (forall w, exists msg,
        backup_date_of obj w
        = (Ok (replace_tzinfo_none (LastModified obj)), add_log INFO msg w))
  /\ (forall rd objs acc w,
        (collect_old rd objs acc w).1
        = Ok (acc ++ map Key (List.filter (fun o => lt (backup_date o) rd) objs)))
  /\ (forall rd acc w,
        (collect_old rd [obj] acc w).1
        = Ok (if lt (replace_tzinfo_none (LastModified obj)) rd
              then acc ++ [Key obj] else acc)).
Proof.
  intros Hun.
  assert (Hdate : backup_date obj = replace_tzinfo_none (LastModified obj)).
  { unfold backup_date. unfold unparsable in Hun.
    destruct (backup_date_str (Key obj)) as [s|]; [rewrite Hun|]; reflexivity. }
  split; [exact Hdate|]. split; [|split].
  - intros w. destruct (backup_date_of_run obj w) as (lines & Heq & _ & Hmsg).
    destruct (Hmsg Hun) as (msg & ->). exists msg. rewrite Heq, Hdate. reflexivity.
  - intros rd objs acc w.
    destruct (collect_old_run rd objs acc w) as (lines & -> & _). reflexivity.
  - intros rd acc w.
    destruct (collect_old_run rd [obj] acc w) as (lines & -> & _).
    unfold old_keys. cbn [List.filter fst]. rewrite Hdate.
    destruct (lt (replace_tzinfo_none (LastModified obj)) rd); cbn [map];
      [reflexivity|]. rewrite app_nil_r. reflexivity.
Qed.

Lemma backup_date_fallback_last_modified_witness :
  backup_date obj_notes = mkdt 2024 1 1 0 0 0 0
  /\ (forall w, exists msg,
        backup_date_of obj_notes w = (Ok (mkdt 2024 1 1 0 0 0 0), add_log INFO msg w))
  /\ (forall rd objs acc w,
        (collect_old rd objs acc w).1
        = Ok (acc ++ map Key (List.filter (fun o => lt (backup_date o) rd) objs)))
  /\ (forall rd acc w,
        (collect_old rd [obj_notes] acc w).1
        = Ok (if lt (mkdt 2024 1 1 0 0 0 0) rd then acc ++ [key_notes] else acc)).
Proof.
  apply (backup_date_fallback_last_modified obj_notes). vm_compute. reflexivity.
Defined.

(** C10 fails as stated: a key without underscore does not always fail
    to parse.  The key below has none, and it is parsed whole, once
    [".sql.zip"] is removed, as 2024-01-05 03:04:05. *)
Lemma key_without_underscore_parses :
  ~ (forall key, contains "_" key = false -> unparsable key).
Proof.
  intros H. specialize (H "2024-01-05T03:04:05.sql.zip" eq_refl).
  vm_compute in H. discriminate.
Qed.

(** C10, amended.  The text parsed is the last field of the key split at
    underscores, that is the part after the last underscore or the whole
    key when it has none, with every occurrence of [".sql.zip"] removed.
    For a key [pre/name_ts.sql.zip] where [ts] has no underscore and is
    valid in the format, the text parsed is [ts] and the backup date is
    its date, whatever underscores [pre] and [name] contain.  A key
    without underscore is parsed whole (with [".sql.zip"] removed): it
    takes the fallback exactly when that text is not a valid time stamp,
    in particular whenever the key contains a slash. *)
Theorem backup_date_str_extraction :
  (forall key, exists field,
      last_item (split "_" key) = Some field
      /\ contains "_" field = false
      /\ ((contains "_" key = false /\ field = key)
          \/ exists before, key = (before ++ "_" ++ field)%string)
      /\ backup_date_str key = Some (replace ".sql.zip" "" field))
  /\ (forall pre name ts d lm,
        contains "_" ts = false -> strptime ts = Some d ->
        backup_date_str (pre ++ "/" ++ name ++ "_" ++ ts ++ ".sql.zip")%string = Some ts
        /\ backup_date (mkobj (pre ++ "/" ++ name ++ "_" ++ ts ++ ".sql.zip")%string lm) = d)
  /\ (forall key,
        contains "_" key = false ->
        backup_date_str key = Some (replace ".sql.zip" "" key)
        /\ (unparsable key <-> strptime (replace ".sql.zip" "" key) = None)
        /\ (contains "/" key = true -> unparsable key)).
Proof.
  split; [|split].
  - intros key. destruct (last_item_split_spec "_" key) as (field & Hl & Hf & Hs).
    exists field. unfold backup_date_str. rewrite Hl. auto.
  - intros pre name ts d lm Hu Hd.
    replace (pre ++ "/" ++ name ++ "_" ++ ts ++ ".sql.zip")%string
      with ((pre ++ "/" ++ name) ++ "_" ++ ts ++ ".sql.zip")%string
      by (rewrite append_assoc; reflexivity).
    split; [apply (backup_date_str_suffix _ ts d Hu Hd)|].
    apply backup_date_embedded; assumption.
  - intros key Hu.
    assert (Hs : backup_date_str key = Some (replace ".sql.zip" "" key)).
    { unfold backup_date_str. rewrite (last_item_split_no_sep _ _ Hu). reflexivity. }
    split; [exact Hs|]. unfold unparsable. rewrite Hs. split; [reflexivity|].
    intros Hslash. apply (strptime_contains_none "/"); [reflexivity|].
    rewrite replace_keeps; [exact Hslash|discriminate|reflexivity].
Qed.

Lemma backup_date_str_extraction_witness :
  backup_date_str "backups/my_db_2024-01-05T03:04:05.sql.zip" = Some "2024-01-05T03:04:05"%string
  /\ backup_date (mkobj "backups/my_db_2024-01-05T03:04:05.sql.zip" (utc noon))
     = mkdt 2024 1 5 3 4 5 0.
Proof.
  destruct backup_date_str_extraction as (_ & Hkey & _).
  apply (Hkey "backups"%string "my_db"%string "2024-01-05T03:04:05"%string
           (mkdt 2024 1 5 3 4 5 0) (utc noon)); reflexivity.
Defined.

(** *** Dumper and uploader *)

(** C2.  For every database name: when the dump command exits with
    status 0 and the archive is written, [dump_database] returns the path
    of the archive, which is the path of the dump file followed by
    [".zip"]; the archive then holds exactly one entry, named after the
    base name of the dump file, and the dump file is gone, all other
    files being as before.  Conversely a returned path is always that
    archive's, left in that state by a successful dump and compression. *)
Theorem dump_database_success_archive cfg env db w :
  let backup_file := backup_file_path cfg db (clock env (ticks w)) in
  let compressed_file := (backup_file ++ ".zip")%string in
  (forall data,
     mysqldump env (S (ticks w)) (dump_command cfg db backup_file) = DumpOk data ->
     zipper env (S (S (ticks w))) compressed_file = ZipOk ->
     exists w', dump_database cfg env db w = (Ok (Some compressed_file), w')
                /\ archived w w' backup_file data)
  /\ (forall p w',
        dump_database cfg env db w = (Ok (Some p), w') ->
        p = compressed_file
        /\ exists data,
             mysqldump env (S (ticks w)) (dump_command cfg db backup_file) = DumpOk data
             /\ zipper env (S (S (ticks w))) compressed_file = ZipOk
             /\ archived w w' backup_file data).
Proof.
  intros bf zf.
  assert (Hok : forall data,
             mysqldump env (S (ticks w)) (dump_command cfg db bf) = DumpOk data ->
             zipper env (S (S (ticks w))) zf = ZipOk ->
             exists w', dump_database cfg env db w = (Ok (Some zf), w')
                        /\ archived w w' bf data).
  { intros data Hd Hz. eexists. split; [apply (dump_database_ok cfg env db w data Hd Hz)|].
    unfold archived. cbn [fs]. fold zf. split; [|split].
    - rewrite lookup_delete_ne by (apply not_eq_sym, append_zip_neq).
      apply lookup_insert_eq.
    - apply lookup_delete_eq.
    - intros q Hq1 Hq2. apply not_eq_sym in Hq1, Hq2.
      rewrite lookup_delete_ne by exact Hq2.
      rewrite !lookup_insert_ne by assumption. reflexivity. }
  split; [exact Hok|].
  intros p w' Hrun.
  destruct (dump_database_total cfg env db w) as (r & w1 & ok & lines & Heq & _ & _ & _ & Hr).
  rewrite Heq in Hrun. injection Hrun as -> ->.
  destruct Hr as (-> & _ & data & Hd & Hz). split; [reflexivity|].
  exists data. split; [exact Hd|]. split; [exact Hz|].
  destruct (Hok data Hd Hz) as (w2 & Heq2 & Harch).
  rewrite Heq in Heq2. injection Heq2 as <-. exact Harch.
Qed.

Lemma dump_database_success_archive_witness :
  exists w',
    dump_database cfg0 env_ok "app" w_empty = (Ok (Some local_archive), w')
    /\ archived w_empty w' "/srv/app/dumps/app_2024-06-15T12:00:00.sql" "-- dump".
Proof.
  destruct (dump_database_success_archive cfg0 env_ok "app" w_empty) as [Hok _].
  apply (Hok "-- dump"); reflexivity.
Defined.

(** C5.  For a local file that exists, [upload_to_s3] makes exactly one
    upload call and returns normally (removing an existing file does not
    fail in the model of the filesystem).  When the upload succeeds the local
    file is removed (and the bucket holds its content under the computed
    key); when the upload is refused the local files, that file
    included, and the bucket are exactly as before. *)
Theorem upload_to_s3_local_file cfg env file_path w f :
  fs w !! file_path = Some f ->
  let key := s3_path cfg (basename file_path) in
  exists w' ok,
    upload_to_s3 cfg env file_path w = (Ok tt, w')
    /\ new_events w w' = [EvUpload file_path key ok]
    /\ (ok = true <-> upload_fault env (ticks w) file_path key = None)
    /\ (ok = true ->
        fs w' = delete file_path (fs w) /\ fs w' !! file_path = None
        /\ exists stamp, bucket w' !! key = Some (mkentry f stamp))
    /\ (ok = false ->
        fs w' = fs w /\ fs w' !! file_path = Some f /\ bucket w' = bucket w).
Proof.
  intros Hf key.
  destruct (upload_fault env (ticks w) file_path key) as [e|] eqn:Hu.
  - eexists _, false. rewrite (upload_to_s3_refused cfg env _ _ _ _ Hf Hu).
    split; [reflexivity|]. split; [apply new_events_app; reflexivity|].
    cbn [fs bucket]. repeat split; try discriminate; auto.
  - eexists _, true. rewrite (upload_to_s3_ok cfg env _ _ _ Hf Hu).
    split; [reflexivity|]. split; [apply new_events_app; reflexivity|].
    cbn [fs bucket]. repeat split; try discriminate; auto.
    + apply lookup_delete_eq.
    + eexists. apply lookup_insert_eq.
Qed.

Lemma upload_to_s3_local_file_witness :
  exists w' ok,
    upload_to_s3 cfg0 env_ok local_archive w_archive = (Ok tt, w')
    /\ new_events w_archive w'
       = [EvUpload local_archive "backups/app_2024-06-15T12:00:00.sql.zip" ok]
    /\ (ok = true <->
        upload_fault env_ok 0 local_archive "backups/app_2024-06-15T12:00:00.sql.zip" = None)
    /\ (ok = true ->
        fs w' = delete local_archive (fs w_archive) /\ fs w' !! local_archive = None
        /\ exists stamp,
             bucket w' !! "backups/app_2024-06-15T12:00:00.sql.zip"
             = Some (mkentry (Archive [("app_2024-06-15T12:00:00.sql", Raw "-- dump")]) stamp))
    /\ (ok = false ->
        fs w' = fs w_archive
        /\ fs w' !! local_archive
           = Some (Archive [("app_2024-06-15T12:00:00.sql", Raw "-- dump")])
        /\ bucket w' = bucket w_archive).
Proof.
  apply (upload_to_s3_local_file cfg0 env_ok local_archive w_archive
           (Archive [("app_2024-06-15T12:00:00.sql", Raw "-- dump")])).
  vm_compute. reflexivity.
Defined.

(** *** Artifact names and remote keys *)

Lemma basename_from_no_slash p : forall acc,
  contains "/" p = false -> basename_from acc p = acc.
Proof.
  induction p as [|a p IH]; intros acc H; [reflexivity|].
  simpl in *. apply orb_false_iff in H as [Ha Hp]. rewrite Ha. auto.
Qed.

Lemma basename_no_slash p : contains "/" p = false -> basename p = p.
Proof. apply basename_from_no_slash. Qed.

Lemma basename_from_app x f : forall acc,
  contains "/" f = false -> basename_from acc (x ++ String "/" f)%string = f.
Proof.
  induction x as [|a x IH]; intros acc Hf.
  - change (basename_from f f = f). apply basename_from_no_slash, Hf.
  - change (String a x ++ String "/" f)%string with (String a (x ++ String "/" f))%string.
    cbn [basename_from]. destruct (Ascii.eqb a "/"); apply IH, Hf.
Qed.

Lemma basename_dir_app d f :
  dir_part d -> contains "/" f = false -> basename (d ++ f)%string = f.
Proof.
  intros [->|[x ->]] Hf.
  - apply basename_no_slash, Hf.
  - rewrite append_assoc. apply basename_from_app, Hf.
Qed.

Lemma slice_from_split n : forall s, exists x, s = (x ++ slice_from n s)%string.
Proof.
  induction n as [|n IH]; intros s.
  - exists "". reflexivity.
  - destruct s as [|a s]; [exists ""; reflexivity|].
    destruct (IH s) as [x Hx]. exists (String a x). cbn [slice_from].
    change (String a s = String a (x ++ slice_from n s)%string). congruence.
Qed.

Lemma endswith_split p s : endswith p s = true -> exists x, s = (x ++ p)%string.
Proof.
  unfold endswith. intros H. apply andb_true_iff in H as [_ H].
  apply String.eqb_eq in H.
  destruct (slice_from_split (String.length s - String.length p) s) as [x Hx].
  exists x. rewrite H in Hx. exact Hx.
Qed.

Lemma startswith_slash_contains f : contains "/" f = false -> startswith "/" f = false.
Proof.
  destruct f as [|a f]; [reflexivity|]. cbn [contains startswith]. intros H.
  apply orb_false_iff in H as [Ha _]. rewrite Ascii.eqb_sym, Ha. reflexivity.
Qed.

(** [join2] puts a directory part in front of its second argument. *)
Lemma join2_dir path f :
  contains "/" f = false -> exists d, join2 path f = (d ++ f)%string /\ dir_part d.
Proof.
  intros Hf. unfold join2. rewrite (startswith_slash_contains f Hf). cbn [orb].
  destruct (String.eqb path "") eqn:He.
  - exists "". split; [reflexivity|left; reflexivity].
  - destruct (endswith "/" path) eqn:Hs.
    + exists path. split; [reflexivity|]. right. apply endswith_split, Hs.
    + exists (path ++ "/")%string. split; [rewrite append_assoc; reflexivity|].
      right. eauto.
Qed.

(** The text of a number is made of digits. *)
Lemma string_of_uint_digits d : all_chars digit (NilEmpty.string_of_uint d) = true.
Proof. induction d; simpl; auto. Qed.

Lemma decimal_digits n : all_chars digit (decimal n) = true.
Proof.
  unfold decimal, NilZero.string_of_uint.
  destruct (N.to_uint (Z.to_N n)) eqn:E; try reflexivity;
    rewrite <- E; try apply string_of_uint_digits;
    rewrite E; apply (string_of_uint_digits (_ _)).
Qed.

Lemma zfill_digits w n : all_chars digit (zfill w n) = true.
Proof.
  unfold zfill. rewrite all_chars_app, decimal_digits, andb_true_r.
  induction (w - String.length (decimal n))%nat; simpl; auto.
Qed.

Lemma all_chars_impl (p q : ascii -> bool) s :
  (forall c, p c = true -> q c = true) -> all_chars p s = true -> all_chars q s = true.
Proof.
  intros Hpq. induction s as [|a s IH]; simpl; [reflexivity|].
  intros H. apply andb_true_iff in H as [Ha Hs]. rewrite (Hpq _ Ha), (IH Hs). reflexivity.
Qed.

Lemma digit_allowed c : digit c = true -> allowed c = true.
Proof. intros H. unfold allowed. rewrite H. reflexivity. Qed.

(** A formatted time stamp is made of digits, dashes, colons and a T. *)
Lemma strftime_chars d : all_chars allowed (strftime d) = true.
Proof.
  unfold strftime.
  repeat (rewrite all_chars_app;
          rewrite ?(all_chars_impl _ _ _ digit_allowed (zfill_digits _ _)); cbn [andb]);
    try reflexivity.
Qed.

(** The dump file is placed in a directory part followed by its name. *)
Lemma backup_file_path_dir cfg db now :
  contains "/" db = false ->
  exists d, backup_file_path cfg db now
            = (d ++ db ++ "_" ++ strftime now ++ ".sql")%string /\ dir_part d.
Proof.
  intros Hdb. unfold backup_file_path, join. cbn [fold_left].
  apply join2_dir.
  rewrite !contains_app, Hdb.
  rewrite (all_chars_contains _ _ _ (strftime_chars now)) by reflexivity.
  reflexivity.
Qed.

(** C9 fails as stated.  With the remote folder ["backups/"] the key of
    [app_2024-06-15T12:00:00.sql.zip] is
    ["backups/app_2024-06-15T12:00:00.sql.zip"]: [os.path.join] adds no
    second slash. *)
Lemma key_with_trailing_slash_prefix : ~ naming_as_stated.
Proof.
  intros H.
  destruct (H cfg_slash env_ok "app"%string w_empty _ _
              (dump_database_ok cfg_slash env_ok "app" w_empty "-- dump" eq_refl eq_refl))
    as [_ Hkey].
  vm_compute in Hkey. discriminate.
Qed.

(** A database name with a slash: the part before the slash becomes a
    directory and the file name of the artifact starts after it. *)
Lemma name_with_slash_in_database :
  exists p w',
    dump_database cfg0 env_ok "a/b" w_empty = (Ok (Some p), w')
    /\ basename p = "b_2024-06-15T12:00:00.sql.zip"%string.
Proof.
  do 2 eexists. split.
  - apply (dump_database_ok cfg0 env_ok "a/b" w_empty "-- dump"); reflexivity.
  - vm_compute. reflexivity.
Qed.

(** C9, amended.  When [dump_database] returns a path for a database
    whose name has no slash, the file name of that path is
    [database_timestamp.sql.zip], the time stamp being the dump time
    printed as [YYYY-MM-DDTHH:MM:SS]; and [upload_to_s3] sends the file
    under the key [os.path.join(prefix, file name)]: that file name alone
    for an empty prefix, prefix and file name put together for a prefix
    that ends with a slash, and prefix, slash, file name otherwise. *)
Theorem artifact_name_and_key cfg env db w p w' :
  dump_database cfg env db w = (Ok (Some p), w') ->
  contains "/" db = false ->
  let now := clock env (ticks w) in
  let timestamp :=
    (zfill 4 (year now) ++ "-" ++ zfill 2 (month now) ++ "-" ++ zfill 2 (day now) ++ "T"
     ++ zfill 2 (hour now) ++ ":" ++ zfill 2 (minute now) ++ ":" ++ zfill 2 (second now))%string in
  let file_name := (db ++ "_" ++ timestamp ++ ".sql.zip")%string in
  let folder := AWS_S3_BACKUP_FOLDER cfg in
  let key :=
    if String.eqb folder "" then file_name
    else if endswith "/" folder then (folder ++ file_name)%string
    else (folder ++ "/" ++ file_name)%string in
  basename p = file_name
  /\ s3_path cfg (basename p) = key
  /\ forall w2, exists w3 ok,
       upload_to_s3 cfg env p w2 = (Ok tt, w3)
       /\ new_events w2 w3 = [EvUpload p key ok].
Proof.
  intros Hrun Hdb now timestamp file_name folder key.
  destruct (dump_database_total cfg env db w) as (r & w1 & ok & lines & Heq & _ & _ & _ & Hr).
  rewrite Heq in Hrun. injection Hrun as -> ->. destruct Hr as (-> & _).
  fold now. change timestamp with (strftime now) in *.
  assert (Hfn : contains "/" file_name = false).
  { unfold file_name. rewrite !contains_app, Hdb.
    rewrite (all_chars_contains _ _ _ (strftime_chars now)) by reflexivity.
    reflexivity. }
  assert (Hbase : basename (backup_file_path cfg db now ++ ".zip")%string = file_name).
  { destruct (backup_file_path_dir cfg db now Hdb) as (d & -> & Hd).
    replace ((d ++ db ++ "_" ++ strftime now ++ ".sql") ++ ".zip")%string
      with (d ++ file_name)%string
      by (unfold file_name; rewrite !append_assoc; reflexivity).
    apply basename_dir_app; assumption. }
  assert (Hkey : s3_path cfg file_name = key).
  { unfold s3_path, join, key. cbn [fold_left]. unfold join2. fold folder.
    rewrite (startswith_slash_contains _ Hfn). reflexivity. }
  split; [exact Hbase|]. rewrite Hbase. split; [exact Hkey|].
  intros w2.
  destruct (upload_to_s3_total cfg env (backup_file_path cfg db now ++ ".zip")%string w2)
    as (w3 & ok2 & line & Hup & Ht & _).
  exists w3, ok2. split; [exact Hup|].
  rewrite Hbase, Hkey in Ht. apply new_events_app, Ht.
Qed.

Lemma artifact_name_and_key_witness :
  basename local_archive = "app_2024-06-15T12:00:00.sql.zip"%string
  /\ s3_path cfg_slash (basename local_archive) = "backups/app_2024-06-15T12:00:00.sql.zip"%string
  /\ forall w2, exists w3 ok,
       upload_to_s3 cfg_slash env_ok local_archive w2 = (Ok tt, w3)
       /\ new_events w2 w3
          = [EvUpload local_archive "backups/app_2024-06-15T12:00:00.sql.zip" ok].
Proof.
  apply (artifact_name_and_key cfg_slash env_ok "app" w_empty _ _
           (dump_database_ok cfg_slash env_ok "app" w_empty "-- dump" eq_refl eq_refl)).
  reflexivity.
Defined.

(** *** Orchestrator and error handling *)

(** C3.  [perform_backup] runs the loop over the databases and then: if
    every dump attempt returned no artifact, the list of generated
    backups is empty, a warning is logged, and the run makes no listing
    and no delete call and leaves the bucket as it was; otherwise the
    list is not empty and the run continues as [delete_old_backups] from
    the world the loop has left.  The list is empty exactly when every
    dump attempt failed. *)
Theorem perform_backup_prunes_iff_generated cfg env w :
  exists backups_generated w1,
    backup_each cfg env (DATABASES cfg) [] w = (Ok backups_generated, w1)
    /\ (backups_generated = [] <-> all_dumps_fail cfg env (DATABASES cfg) w = true)
    /\ (all_dumps_fail cfg env (DATABASES cfg) w = true ->
        perform_backup cfg env w = (Ok tt, add_log WARNING warning_text w1)
        /\ Forall (fun ev => ~ is_prune_call ev) (new_events w (perform_backup cfg env w).2)
        /\ bucket (perform_backup cfg env w).2 = bucket w)
    /\ (all_dumps_fail cfg env (DATABASES cfg) w = false ->
        perform_backup cfg env w = delete_old_backups cfg env w1).
Proof.
  destruct (backup_each_run cfg env (DATABASES cfg) [] w)
    as (gen & w1 & evs & lines & Heq & Ht & Hl & Hev & Hcmds & Hfail & Hgen).
  cbn [app] in Heq. exists gen, w1. split; [exact Heq|].
  unfold perform_backup, bind. rewrite Heq.
  destruct (all_dumps_fail cfg env (DATABASES cfg) w) eqn:Hall.
  - destruct (Hfail eq_refl) as (-> & Hshell & Hb & _).
    split; [split; reflexivity|]. split; [|discriminate].
    intros _. split; [reflexivity|]. cbn [snd]. split.
    + erewrite new_events_app by (cbn; exact Ht). exact Hev.
    + exact Hb.
  - specialize (Hgen eq_refl). split; [split; [contradiction|discriminate]|].
    split; [discriminate|]. intros _.
    destruct gen; [contradiction|reflexivity].
Qed.

Lemma perform_backup_prunes_iff_generated_witness :
  perform_backup cfg0 env_dump_fails w_backups
  = (Ok tt,
     add_log WARNING warning_text
       (backup_each cfg0 env_dump_fails (DATABASES cfg0) [] w_backups).2)
  /\ Forall (fun ev => ~ is_prune_call ev)
       (new_events w_backups (perform_backup cfg0 env_dump_fails w_backups).2)
  /\ bucket (perform_backup cfg0 env_dump_fails w_backups).2 = bucket w_backups.
Proof.
  destruct (perform_backup_prunes_iff_generated cfg0 env_dump_fails w_backups)
    as (gen & w1 & Heq & _ & Hfail & _).
  rewrite Heq. apply Hfail. vm_compute. reflexivity.
Defined.

Lemma shell_cmds_prune evs : Forall is_prune_call evs -> shell_cmds evs = [].
Proof.
  induction 1 as [|ev evs Hev _ IH]; [reflexivity|].
  destruct ev; try contradiction; exact IH.
Qed.

(** When a call of the pruner is refused, the last line it logs is the
    error. *)
Lemma prune_failure_logged cfg env w :
  let w' := (delete_old_backups cfg env w).2 in
  (In (EvList (AWS_S3_BACKUP_FOLDER cfg) None) (new_events w w')
   \/ exists k, In (EvDelete k false) (new_events w w')) ->
  exists e, last (new_log w w') = Some (prune_error_line e).
Proof.
  intros w' Hfail. subst w'.
  destruct (sub_days (clock env (ticks w)) retention_days) as [cutoff|] eqn:Hc.
  - destruct (list_fault env (S (ticks w)) (prefix cfg)) as [e|] eqn:Hl.
    + rewrite (prune_list_refused cfg env w cutoff e Hc Hl). cbn [snd].
      erewrite new_log_app by reflexivity. eauto.
    + destruct (delete_run env (S (S (ticks w)))
                  (old_keys cutoff (listing (prefix cfg) (bucket w)))) as [done f] eqn:Hrun.
      destruct (prune_listed cfg env w cutoff done f Hc Hl Hrun) as (lines & _ & _ & Heq).
      rewrite Heq in *. cbn [snd] in *.
      erewrite new_events_app in Hfail by reflexivity.
      erewrite new_log_app by reflexivity.
      destruct f as [[k e]|].
      * exists e. cbn [failed_line]. rewrite !app_assoc. apply last_snoc.
      * exfalso. cbn [failed_event] in Hfail. rewrite app_nil_r in Hfail.
        destruct Hfail as [[H|H]|[k [H|H]]]; try discriminate;
          apply in_map_iff in H as (k' & Hk & _); discriminate.
  - rewrite (prune_overflow cfg env w Hc) in Hfail. cbn [snd] in Hfail.
    erewrite new_events_app in Hfail by (cbn; rewrite app_nil_r; reflexivity).
    destruct Hfail as [[]|[k []]].
Qed.

(** C6.  No stage hands an exception to its caller.  [dump_database]
    always returns; when it returns no artifact it has logged the error,
    and it returns an artifact only when neither the dump command nor
    the compression failed; [upload_to_s3] always returns, and a refused upload is
    logged as an error; [delete_old_backups] always returns, and a
    refused listing or delete call is logged as an error.  Hence
    [perform_backup] always returns, and it has run the dump command of
    every configured database, one after the other in the configured
    order, whatever failed on the way. *)
Theorem stages_never_raise cfg env :
  (forall db w, exists r w',
      dump_database cfg env db w = (Ok r, w')
      /\ (r = None -> exists e, new_log w w' = [dump_error_line db e])
      /\ (forall p, r = Some p ->
            let backup_file := backup_file_path cfg db (clock env (ticks w)) in
            exists data,
              mysqldump env (S (ticks w)) (dump_command cfg db backup_file) = DumpOk data
              /\ zipper env (S (S (ticks w))) (backup_file ++ ".zip")%string = ZipOk))
  /\ (forall file_path w, exists w' ok line,
        upload_to_s3 cfg env file_path w = (Ok tt, w')
        /\ new_events w w' = [EvUpload file_path (s3_path cfg (basename file_path)) ok]
        /\ new_log w w' = [line]
        /\ (ok = false -> is_error line))
  /\ (forall w, exists w',
        delete_old_backups cfg env w = (Ok tt, w')
        /\ ((In (EvList (AWS_S3_BACKUP_FOLDER cfg) None) (new_events w w')
             \/ exists k, In (EvDelete k false) (new_events w w')) ->
            exists e, last (new_log w w') = Some (prune_error_line e)))
  /\ (forall w, exists w',
        perform_backup cfg env w = (Ok tt, w')
        /\ Forall2 (dumps cfg) (DATABASES cfg) (shell_cmds (new_events w w'))).
Proof.
  split; [|split; [|split]].
  - intros db w.
    destruct (dump_database_total cfg env db w) as (r & w' & ok & lines & Heq & _ & _ & Hl & Hr).
    exists r, w'. split; [exact Heq|]. split.
    + intros ->. destruct Hr as [e ->]. exists e. apply new_log_app, Hl.
    + intros p ->. destruct Hr as (_ & _ & data & Hd & Hz). exists data. auto.
  - intros file_path w.
    destruct (upload_to_s3_total cfg env file_path w) as (w' & ok & line & Heq & Ht & Hl & Hok).
    exists w', ok, line. split; [exact Heq|].
    split; [apply new_events_app, Ht|]. split; [apply new_log_app, Hl|].
    intros Hf. apply Hok, Hf.
  - intros w.
    destruct (delete_old_backups_total cfg env w) as (w' & evs & Heq & _).
    exists w'. split; [exact Heq|].
    pose proof (prune_failure_logged cfg env w) as Hlog.
    rewrite Heq in Hlog. exact Hlog.
  - intros w. unfold perform_backup, bind.
    destruct (backup_each_run cfg env (DATABASES cfg) [] w)
      as (gen & w1 & evs & lines & Heq & Ht & _ & _ & Hcmds & _).
    rewrite Heq. cbn [app].
    destruct gen as [|p gen].
    + eexists. split; [reflexivity|].
      erewrite new_events_app by (cbn; exact Ht). exact Hcmds.
    + destruct (delete_old_backups_total cfg env w1) as (w' & evs' & Heq' & Ht' & Hev').
      exists w'. split; [exact Heq'|].
      erewrite new_events_app by (rewrite Ht', Ht, <- app_assoc; reflexivity).
      rewrite shell_cmds_app, (shell_cmds_prune _ Hev'), app_nil_r. exact Hcmds.
Qed.

Lemma stages_never_raise_witness :
  exists r w',
    dump_database cfg0 env_dump_fails "app" w_empty = (Ok r, w')
    /\ (r = None -> exists e, new_log w_empty w' = [dump_error_line "app" e])
    /\ (forall p, r = Some p ->
          let backup_file := backup_file_path cfg0 "app" (clock env_dump_fails 0) in
          exists data,
            mysqldump env_dump_fails 1 (dump_command cfg0 "app" backup_file) = DumpOk data
            /\ zipper env_dump_fails 2 (backup_file ++ ".zip")%string = ZipOk).
Proof.
  destruct (stages_never_raise cfg0 env_dump_fails) as (Hdump & _).
  apply (Hdump "app"%string w_empty).
Defined.

(** *** The naming convention holds together *)

Lemma basename_from_clean p : forall acc,
  (contains "/" p = false -> contains "/" acc = false) ->
  contains "/" (basename_from acc p) = false.
Proof.
  induction p as [|a p IH]; intros acc Hacc; cbn [basename_from].
  - apply Hacc. reflexivity.
  - destruct (Ascii.eqb a "/") eqn:Ha.
    + apply IH. auto.
    + apply IH. intros Hp. apply Hacc. cbn [contains]. rewrite Ha, Hp. reflexivity.
Qed.

(** A base name has no slash. *)
Lemma basename_clean p : contains "/" (basename p) = false.
Proof. apply basename_from_clean. auto. Qed.

Lemma basename_from_app_clean rest p : forall acc,
  contains "/" rest = false ->
  basename_from (acc ++ rest) (p ++ rest) = (basename_from acc p ++ rest)%string.
Proof.
  intros acc Hrest. revert acc. induction p as [|a p IH]; intros acc.
  - apply basename_from_no_slash, Hrest.
  - change (String a p ++ rest)%string with (String a (p ++ rest)%string).
    cbn [basename_from]. destruct (Ascii.eqb a "/"); apply IH.
Qed.

(** Text without slash added at the end of a path is added at the end
    of its base name. *)
Lemma basename_app_clean p rest :
  contains "/" rest = false -> basename (p ++ rest) = (basename p ++ rest)%string.
Proof. intros H. apply (basename_from_app_clean rest p p H). Qed.

Lemma join2_suffix path f : exists d, join2 path f = (d ++ f)%string.
Proof.
  unfold join2. destruct (startswith "/" f || String.eqb path "").
  - exists ""%string. reflexivity.
  - destruct (endswith "/" path).
    + exists path. reflexivity.
    + exists (path ++ "/")%string. rewrite append_assoc. reflexivity.
Qed.

(** X1.  The key under which the uploader stores the archive of a dump
    taken at a valid time [now] is read by the pruner as the time stamp printed
    in it: the backup date of that key is [now], to the second, whatever
    the database name and the configured folders are. *)
Theorem uploaded_key_parses_back cfg db now lm :
  valid_fields now = true ->
  let file_name := basename (backup_file_path cfg db now ++ ".zip") in
  backup_date_str (s3_path cfg file_name) = Some (strftime now)
  /\ backup_date (mkobj (s3_path cfg file_name) lm) = to_the_second now.
Proof.
  intros Hvalid file_name.
  pose proof (strptime_strftime now Hvalid) as Hparse.
  assert (Hu : contains "_" (strftime now) = false)
    by (apply (strptime_no_char "_" _ _ Hparse); reflexivity).
  assert (Hs : contains "/" (strftime now) = false)
    by (apply (strptime_no_char "/" _ _ Hparse); reflexivity).
  assert (Hrest : contains "/" ("_" ++ strftime now ++ ".sql.zip")%string = false).
  { change ("_" ++ strftime now ++ ".sql.zip")%string
      with (String "_" (strftime now ++ ".sql.zip"))%string.
    cbn [contains]. rewrite contains_app, Hs. reflexivity. }
  assert (Hname : exists pre,
             file_name = (pre ++ "_" ++ strftime now ++ ".sql.zip")%string
             /\ contains "/" pre = false).
  { unfold file_name, backup_file_path, join. cbn [fold_left].
    destruct (join2_suffix (join2 (script_dir cfg) (PATH_TO_SQL_DUMPS cfg))
                (db ++ "_" ++ strftime now ++ ".sql")) as [d ->].
    exists (basename (d ++ db)).
    split; [|apply basename_clean].
    rewrite <- (basename_app_clean (d ++ db) _ Hrest).
    f_equal. rewrite !append_assoc. reflexivity. }
  destruct Hname as (pre & Hfn & Hpre).
  assert (Hclean : contains "/" file_name = false)
    by (rewrite Hfn, contains_app, Hpre, Hrest; reflexivity).
  assert (Hkey : exists pre', s3_path cfg file_name
                              = (pre' ++ "_" ++ strftime now ++ ".sql.zip")%string).
  { unfold s3_path, join. cbn [fold_left].
    destruct (join2_dir (AWS_S3_BACKUP_FOLDER cfg) file_name Hclean) as (d & -> & _).
    exists (d ++ pre)%string. rewrite Hfn, append_assoc. reflexivity. }
  destruct Hkey as (pre' & ->). split.
  - apply (backup_date_str_suffix pre' _ _ Hu Hparse).
  - apply (backup_date_embedded pre' _ _ lm Hu Hparse).
Qed.

Lemma uploaded_key_parses_back_witness :
  backup_date_str "backups/app_2024-06-15T12:00:00.sql.zip" = Some "2024-06-15T12:00:00"%string
  /\ backup_date (mkobj "backups/app_2024-06-15T12:00:00.sql.zip" (utc noon))
     = mkdt 2024 6 15 12 0 0 0.
Proof.
  apply (uploaded_key_parses_back cfg0 "app" noon (utc noon)). reflexivity.
Defined.

(* ===================================================================== *)
(** ** Further properties of the script *)
(* ===================================================================== *)

(** *** What a pruning call can and cannot do *)

(** The outcomes of a pruning call: it stops before or at the listing
    call with an error, or it lists, queues the old keys and deletes them
    up to the first refusal. *)
Lemma prune_outcome cfg env w :
  (exists e evs n,
      delete_old_backups cfg env w
      = (Ok tt, mkworld (fs w) (bucket w) (log w ++ [prune_error_line e]) (trace w ++ evs) n)
      /\ (evs = [] \/ evs = [EvList (AWS_S3_BACKUP_FOLDER cfg) None]))
  \/ (exists cutoff done f lines n,
        sub_days (clock env (ticks w)) retention_days = Some cutoff
        /\ delete_run env (S (S (ticks w)))
             (old_keys cutoff (listing (AWS_S3_BACKUP_FOLDER cfg) (bucket w))) = (done, f)
        /\ Forall is_info lines
        /\ delete_old_backups cfg env w
           = (Ok tt,
              mkworld (fs w) (remove_keys done (bucket w))
                (log w ++ lines ++ map deleted_line done ++ failed_line f)
                (trace w ++ EvList (AWS_S3_BACKUP_FOLDER cfg) (Some (list_response cfg (bucket w)))
                         :: map (fun k => EvDelete k true) done ++ failed_event f)
                n)).
Proof.
  destruct (sub_days (clock env (ticks w)) retention_days) as [cutoff|] eqn:Hc.
  - destruct (list_fault env (S (ticks w)) (prefix cfg)) as [e|] eqn:Hl.
    + left. exists e, [EvList (AWS_S3_BACKUP_FOLDER cfg) None], (S (S (ticks w))).
      split; [apply (prune_list_refused cfg env w cutoff e Hc Hl)|auto].
    + destruct (delete_run env (S (S (ticks w)))
                  (old_keys cutoff (listing (prefix cfg) (bucket w)))) as [done f] eqn:Hrun.
      destruct (prune_listed cfg env w cutoff done f Hc Hl Hrun) as (lines & Hi & _ & Heq).
      right. exists cutoff, done, f, lines. eexists. repeat split; eauto.
  - left. exists OverflowError, [], (S (ticks w)). rewrite app_nil_r.
    split; [apply (prune_overflow cfg env w Hc)|auto].
Qed.

(** the keys deleted are queued keys *)
Lemma delete_run_incl env n keys done f :
  delete_run env n keys = (done, f) -> incl (done ++ delete_calls (failed_event f)) keys.
Proof.
  intros Hrun. pose proof (delete_run_split env _ _ _ _ Hrun) as Hs.
  destruct f as [[k e]|].
  - destruct Hs as (rest & -> & _). cbn. intros x Hx.
    apply in_app_or in Hx as [Hx|[<-|[]]]; apply in_or_app; [left|right; left]; auto.
  - subst. cbn. rewrite app_nil_r. apply incl_refl.
Qed.

Lemma remove_keys_some ks (b : gmap string s3entry) k e :
  remove_keys ks b !! k = Some e -> b !! k = Some e.
Proof.
  intros H. destruct (in_dec string_dec k ks) as [Hin|Hnin].
  - rewrite (remove_keys_in ks b k Hin) in H. discriminate.
  - rewrite (remove_keys_notin ks b k Hnin) in H. exact H.
Qed.

Lemma remove_keys_none ks (b : gmap string s3entry) k :
  is_Some (b !! k) -> remove_keys ks b !! k = None -> In k ks.
Proof.
  intros [e He] H. destruct (in_dec string_dec k ks) as [Hin|Hnin]; [exact Hin|].
  rewrite (remove_keys_notin ks b k Hnin), He in H. discriminate.
Qed.

(** X2.  Whatever happens in a pruning call (refused calls included),
    it leaves the local files alone, it adds no object to the bucket and
    changes none, and every object it removes was listed under the
    configured prefix and has a backup date strictly earlier than the
    retention date. *)
Theorem prune_only_removes_old_listed cfg env w :
  let w' := (delete_old_backups cfg env w).2 in
  fs w' = fs w
  /\ (forall k e, bucket w' !! k = Some e -> bucket w !! k = Some e)
  /\ (forall k e, bucket w !! k = Some e -> bucket w' !! k = None ->
        exists cutoff,
          sub_days (clock env (ticks w)) retention_days = Some cutoff
          /\ startswith (AWS_S3_BACKUP_FOLDER cfg) k = true
          /\ In (mkobj k (modified e)) (listing (AWS_S3_BACKUP_FOLDER cfg) (bucket w))
          /\ lt (backup_date (mkobj k (modified e))) cutoff = true).
Proof.
  intros w'. subst w'.
  destruct (prune_outcome cfg env w)
    as [(e & evs & n & -> & _)|(cutoff & done & f & lines & n & Hc & Hrun & _ & ->)];
    cbn [snd fs bucket].
  - split; [reflexivity|]. split; [auto|]. intros k e0 Hk Hnone. congruence.
  - split; [reflexivity|]. split; [intros k e; apply remove_keys_some|].
    intros k e Hk Hnone. exists cutoff. split; [exact Hc|].
    assert (Hin : In k done) by (apply (remove_keys_none done (bucket w) k); eauto).
    assert (Hq : In k (old_keys cutoff (listing (AWS_S3_BACKUP_FOLDER cfg) (bucket w)))).
    { apply (delete_run_incl env _ _ _ _ Hrun). apply in_or_app. left. exact Hin. }
    unfold old_keys in Hq. apply in_map_iff in Hq as (o & Hko & Ho).
    apply filter_In in Ho as [Ho Hold].
    destruct (listing_lookup _ _ _ Ho) as (e' & He' & Hmod & Hpre).
    rewrite Hko, Hk in He'. injection He' as <-.
    assert (Heta : o = mkobj k (modified e)) by (destruct o; cbn in *; congruence).
    subst o. auto.
Qed.

Lemma prune_only_removes_old_listed_witness :
  exists cutoff,
    sub_days (clock env_ok 0) retention_days = Some cutoff
    /\ startswith "backups" key_may = true
    /\ In (mkobj key_may (utc noon)) (listing "backups" some_backups)
    /\ lt (backup_date (mkobj key_may (utc noon))) cutoff = true.
Proof.
  destruct (prune_only_removes_old_listed cfg0 env_ok w_backups) as (_ & _ & Hremoved).
  apply (Hremoved key_may (mkentry (Raw "may") (utc noon))); vm_compute; reflexivity.
Defined.

(** the delete calls made are the first keys of the queue *)
Lemma delete_run_prefix env n keys done f :
  delete_run env n keys = (done, f) ->
  exists rest, keys = (done ++ delete_calls (failed_event f)) ++ rest.
Proof.
  intros Hrun. pose proof (delete_run_split env _ _ _ _ Hrun) as Hs.
  destruct f as [[k e]|].
  - destruct Hs as (rest & -> & _). exists rest. cbn. rewrite <- app_assoc. reflexivity.
  - subst. exists []. cbn. rewrite !app_nil_r. reflexivity.
Qed.

Lemma delete_calls_app evs1 evs2 :
  delete_calls (evs1 ++ evs2) = delete_calls evs1 ++ delete_calls evs2.
Proof. unfold delete_calls. apply flat_map_app. Qed.

Lemma delete_calls_deleted done :
  delete_calls (map (fun k => EvDelete k true) done) = done.
Proof. induction done as [|k done IH]; [reflexivity|]. cbn. f_equal. exact IH. Qed.

Lemma list_calls_app evs1 evs2 :
  list_calls (evs1 ++ evs2) = list_calls evs1 ++ list_calls evs2.
Proof. unfold list_calls. apply List.filter_app. Qed.

Lemma list_calls_deletes done f :
  list_calls (map (fun k => EvDelete k true) done ++ failed_event f) = [].
Proof.
  rewrite list_calls_app. destruct f as [[k e]|]; cbn; rewrite ?app_nil_r;
    induction done as [|k' done IH]; auto.
Qed.

Lemma listing_length pre b : (length (listing pre b) <= MaxKeys)%nat.
Proof.
  unfold listing. rewrite length_map. apply firstn_le_length.
Qed.

Lemma old_keys_length rd objs : (length (old_keys rd objs) <= length objs)%nat.
Proof.
  unfold old_keys. rewrite length_map. apply List.filter_length_le.
Qed.

(** X3.  A pruning call makes at most one listing call (it never asks
    for a further page), so it looks at no more than 1000 objects and
    makes no more than 1000 delete calls; no key is the subject of two
    delete calls, and every delete call is for a key of the bucket that
    starts with the configured prefix. *)
Theorem prune_call_bounds cfg env w :
  let evs := new_events w (delete_old_backups cfg env w).2 in
  (length (list_calls evs) <= 1)%nat
  /\ (length (delete_calls evs) <= 1000)%nat
  /\ NoDup (delete_calls evs)
  /\ (forall resp, In (EvList (AWS_S3_BACKUP_FOLDER cfg) (Some resp)) evs ->
        (length (objects resp) <= 1000)%nat)
  /\ (forall k, In k (delete_calls evs) ->
        startswith (AWS_S3_BACKUP_FOLDER cfg) k = true /\ is_Some (bucket w !! k)).
Proof.
  intros evs. subst evs.
  destruct (prune_outcome cfg env w)
    as [(e & evs & n & -> & Hevs)|(cutoff & done & f & lines & n & Hc & Hrun & _ & ->)];
    cbn [snd]; erewrite new_events_app by reflexivity.
  - assert (Hd : delete_calls evs = []) by (destruct Hevs as [->| ->]; reflexivity).
    assert (Hl : (length (list_calls evs) <= 1)%nat)
      by (destruct Hevs as [->| ->]; cbn; lia).
    rewrite Hd. split; [exact Hl|]. split; [cbn; lia|]. split; [constructor|].
    split; [|intros k []].
    intros resp Hin. exfalso. destruct Hevs as [->| ->]; [destruct Hin|].
    destruct Hin as [H|[]]. discriminate.
  - destruct (delete_run_prefix env _ _ _ _ Hrun) as (rest & Hq).
    set (queue := old_keys cutoff (listing (AWS_S3_BACKUP_FOLDER cfg) (bucket w))) in *.
    assert (Hcalls : delete_calls
                       (EvList (AWS_S3_BACKUP_FOLDER cfg) (Some (list_response cfg (bucket w)))
                        :: map (fun k => EvDelete k true) done ++ failed_event f)
                     = done ++ delete_calls (failed_event f)).
    { change (delete_calls (map (fun k => EvDelete k true) done ++ failed_event f)
              = done ++ delete_calls (failed_event f)).
      rewrite delete_calls_app, delete_calls_deleted. reflexivity. }
    rewrite Hcalls.
    assert (Hlen : (length queue <= 1000)%nat).
    { etransitivity; [apply old_keys_length|apply listing_length]. }
    assert (Hnd : NoDup queue) by (apply old_keys_NoDup, listing_NoDup).
    split; [|split; [|split; [|split]]].
    + cbn [list_calls List.filter].
      change (length (EvList (AWS_S3_BACKUP_FOLDER cfg) (Some (list_response cfg (bucket w)))
                      :: list_calls (map (fun k => EvDelete k true) done ++ failed_event f))
              <= 1)%nat.
      rewrite list_calls_deletes. cbn. lia.
    + rewrite Hq, length_app in Hlen. lia.
    + rewrite Hq in Hnd. apply NoDup_app in Hnd as (Hnd & _). exact Hnd.
    + intros resp [H|H].
      * injection H as <-. rewrite objects_list_response. apply listing_length.
      * exfalso. apply in_app_or in H as [H|H].
        -- apply in_map_iff in H as (k & Hk & _). discriminate.
        -- destruct f as [[k e]|]; [destruct H as [H|[]]; discriminate|destruct H].
    + intros k Hk.
      assert (Hin : In k queue) by (rewrite Hq; apply in_or_app; left; exact Hk).
      unfold queue, old_keys in Hin. apply in_map_iff in Hin as (o & <- & Ho).
      apply filter_In in Ho as [Ho _].
      destruct (listing_lookup _ _ _ Ho) as (e' & He' & _ & Hpre). eauto.
Qed.

(** *** What the dumper leaves behind *)

(** the dump command fails: nothing is compressed *)
Lemma dump_database_command_failed cfg env db w partial e :
  let backup_file := backup_file_path cfg db (clock env (ticks w)) in
  let cmd := dump_command cfg db backup_file in
  mysqldump env (S (ticks w)) cmd = DumpFailed partial e ->
  dump_database cfg env db w
  = (Ok None,
     mkworld
       (match partial with
        | Some data => <[backup_file := Raw data]> (fs w)
        | None => fs w
        end)
       (bucket w) (log w ++ [dump_error_line db e])
       (trace w ++ [EvShell cmd false]) (S (S (ticks w)))).
Proof.
  intros bf cmd Hd.
  unfold dump_database, datetime_now, subprocess_run, zip_write, os_remove. run.
  fold bf. fold cmd. rewrite Hd. destruct partial; reflexivity.
Qed.

(** the dump is written but the archive cannot be created *)
Lemma dump_database_open_failed cfg env db w data e :
  let backup_file := backup_file_path cfg db (clock env (ticks w)) in
  let cmd := dump_command cfg db backup_file in
  mysqldump env (S (ticks w)) cmd = DumpOk data ->
  zipper env (S (S (ticks w))) (backup_file ++ ".zip")%string = ZipOpenFailed e ->
  dump_database cfg env db w
  = (Ok None,
     mkworld (<[backup_file := Raw data]> (fs w))
       (bucket w) (log w ++ [dump_error_line db e])
       (trace w ++ [EvShell cmd true]) (S (S (S (ticks w))))).
Proof.
  intros bf cmd Hd Hz.
  unfold dump_database, datetime_now, subprocess_run, zip_write, os_remove. run.
  fold bf. fold cmd. rewrite Hd. run. rewrite Hz. reflexivity.
Qed.

(** the dump is written, the archive is created, the entry cannot be
    written *)
Lemma dump_database_write_failed cfg env db w data e :
  let backup_file := backup_file_path cfg db (clock env (ticks w)) in
  let cmd := dump_command cfg db backup_file in
  mysqldump env (S (ticks w)) cmd = DumpOk data ->
  zipper env (S (S (ticks w))) (backup_file ++ ".zip")%string = ZipWriteFailed e ->
  dump_database cfg env db w
  = (Ok None,
     mkworld (<[(backup_file ++ ".zip")%string := Archive []]>
                (<[backup_file := Raw data]> (fs w)))
       (bucket w) (log w ++ [dump_error_line db e])
       (trace w ++ [EvShell cmd true]) (S (S (S (ticks w))))).
Proof.
  intros bf cmd Hd Hz.
  unfold dump_database, datetime_now, subprocess_run, zip_write, os_remove. run.
  fold bf. fold cmd. rewrite Hd. run. rewrite Hz. run.
  rewrite lookup_insert_ne by (apply append_zip_neq).
  rewrite lookup_insert_eq. reflexivity.
Qed.


(** X5.  When the dump command succeeds and the compression fails,
    [dump_database] returns no artifact and logs the error, and the
    uncompressed dump file stays on disk with the dump in it; the archive
    path is untouched when the archive could not be created, and a file
    is left at the archive path when the entry could not be written. *)
Theorem dump_database_compression_failure cfg env db w data :
  let backup_file := backup_file_path cfg db (clock env (ticks w)) in
  let compressed_file := (backup_file ++ ".zip")%string in
  let r := dump_database cfg env db w in
  mysqldump env (S (ticks w)) (dump_command cfg db backup_file) = DumpOk data ->
  zipper env (S (S (ticks w))) compressed_file <> ZipOk ->
  r.1 = Ok None
  /\ fs r.2 !! backup_file = Some (Raw data)
  /\ (exists e, new_log w r.2 = [dump_error_line db e]
                /\ (zipper env (S (S (ticks w))) compressed_file = ZipOpenFailed e
                    /\ fs r.2 !! compressed_file = fs w !! compressed_file
                    \/ zipper env (S (S (ticks w))) compressed_file = ZipWriteFailed e
                       /\ is_Some (fs r.2 !! compressed_file))).
Proof.
  intros bf zf r Hd Hz. subst r.
  destruct (zipper env (S (S (ticks w))) zf) as [|e|e] eqn:Hzip; [contradiction| |].
  - rewrite (dump_database_open_failed cfg env db w data e Hd Hzip). cbn [fst snd fs].
    erewrite new_log_app by reflexivity.
    split; [reflexivity|]. split; [apply lookup_insert_eq|].
    exists e. split; [reflexivity|]. left. split; [reflexivity|].
    apply lookup_insert_ne, not_eq_sym, append_zip_neq.
  - rewrite (dump_database_write_failed cfg env db w data e Hd Hzip). cbn [fst snd fs].
    erewrite new_log_app by reflexivity.
    split; [reflexivity|]. split.
    + rewrite lookup_insert_ne by (apply append_zip_neq). apply lookup_insert_eq.
    + exists e. split; [reflexivity|]. right. split; [reflexivity|].
      eexists. apply lookup_insert_eq.
Qed.

Lemma dump_database_compression_failure_witness :
  let r := dump_database cfg0 env_zip_fails "app" w_empty in
  r.1 = Ok None
  /\ fs r.2 !! local_dump = Some (Raw "-- dump")
  /\ (exists e, new_log w_empty r.2 = [dump_error_line "app" e]
                /\ (zipper env_zip_fails 2 local_archive = ZipOpenFailed e
                    /\ fs r.2 !! local_archive = fs w_empty !! local_archive
                    \/ zipper env_zip_fails 2 local_archive = ZipWriteFailed e
                       /\ is_Some (fs r.2 !! local_archive))).
Proof.
  apply (dump_database_compression_failure cfg0 env_zip_fails "app" w_empty "-- dump").
  - reflexivity.
  - discriminate.
Defined.

(** X6.  When the dump command fails, [dump_database] returns no
    artifact and logs the error of the command; the compression is not
    attempted (the shell command is the last thing asked of the
    environment) and the archive path is untouched; the dump file holds
    what the command had written when the shell created it, and is as
    before otherwise: it is never cleaned up. *)
Theorem dump_database_command_failure cfg env db w partial e :
  let backup_file := backup_file_path cfg db (clock env (ticks w)) in
  let compressed_file := (backup_file ++ ".zip")%string in
  let r := dump_database cfg env db w in
  mysqldump env (S (ticks w)) (dump_command cfg db backup_file) = DumpFailed partial e ->
  r.1 = Ok None
  /\ new_log w r.2 = [dump_error_line db e]
  /\ new_events w r.2 = [EvShell (dump_command cfg db backup_file) false]
  /\ ticks r.2 = S (S (ticks w))
  /\ fs r.2 !! compressed_file = fs w !! compressed_file
  /\ fs r.2 !! backup_file
     = match partial with Some data => Some (Raw data) | None => fs w !! backup_file end.
Proof.
  intros bf zf r Hd. subst r.
  rewrite (dump_database_command_failed cfg env db w partial e Hd). cbn [fst snd fs ticks].
  erewrite new_events_app, new_log_app by reflexivity.
  repeat split.
  - destruct partial; [|reflexivity].
    apply lookup_insert_ne, not_eq_sym, append_zip_neq.
  - destruct partial; [apply lookup_insert_eq|reflexivity].
Qed.

Lemma dump_database_command_failure_witness :
  let r := dump_database cfg0 env_dump_partial "app" w_empty in
  r.1 = Ok None
  /\ new_log w_empty r.2 = [dump_error_line "app" CalledProcessError]
  /\ new_events w_empty r.2 = [EvShell (dump_command cfg0 "app" local_dump) false]
  /\ ticks r.2 = 2%nat
  /\ fs r.2 !! local_archive = fs w_empty !! local_archive
  /\ fs r.2 !! local_dump = Some (Raw "-- partial").
Proof.
  apply (dump_database_command_failure cfg0 env_dump_partial "app" w_empty
           (Some "-- partial"%string) CalledProcessError).
  reflexivity.
Defined.

(** *** What the uploader leaves behind *)



(** *** Dumping and uploading one after the other *)

(** X8.  The body of the loop for one database, when the dump, the
    compression and the upload all succeed: the artifact is recorded as
    generated, the bucket holds under the key computed from the
    artifact's base name an archive whose only entry is the dump, named
    after the dump file, and neither the dump file nor the archive is
    left on disk; no other local file and no other object has changed.
    When neither path existed before, the local files are exactly as
    before. *)
Theorem dump_then_upload cfg env db w data :
  let backup_file := backup_file_path cfg db (clock env (ticks w)) in
  let compressed_file := (backup_file ++ ".zip")%string in
  let key := s3_path cfg (basename compressed_file) in
  mysqldump env (S (ticks w)) (dump_command cfg db backup_file) = DumpOk data ->
  zipper env (S (S (ticks w))) compressed_file = ZipOk ->
  upload_fault env (S (S (S (ticks w)))) compressed_file key = None ->
  exists w',
    backup_each cfg env [db] [] w = (Ok [compressed_file], w')
    /\ new_events w w'
       = [EvShell (dump_command cfg db backup_file) true; EvUpload compressed_file key true]
    /\ fs w' !! backup_file = None
    /\ fs w' !! compressed_file = None
    /\ (forall q, q <> backup_file -> q <> compressed_file -> fs w' !! q = fs w !! q)
    /\ (exists stamp,
          bucket w' !! key = Some (mkentry (Archive [(basename backup_file, Raw data)]) stamp))
    /\ (forall k, k <> key -> bucket w' !! k = bucket w !! k)
    /\ (fs w !! backup_file = None -> fs w !! compressed_file = None -> fs w' = fs w).
Proof.
  intros bf zf key Hd Hz Hu.
  cbn [backup_each]. unfold bind at 1.
  rewrite (dump_database_ok cfg env db w data Hd Hz). fold bf zf.
  unfold truthy. rewrite (append_zip_nonempty bf : String.eqb zf "" = false).
  cbn [negb]. unfold bind at 1.
  set (w1 := mkworld _ _ _ _ _).
  assert (Hzf : fs w1 !! zf = Some (Archive [(basename bf, Raw data)])).
  { subst w1. cbn [fs]. rewrite lookup_delete_ne by (apply not_eq_sym, append_zip_neq).
    apply lookup_insert_eq. }
  rewrite (upload_to_s3_ok cfg env zf w1 _ Hzf Hu).
  eexists. split; [reflexivity|]. subst w1. cbn [fs bucket trace ticks].
  assert (Hfs : forall q,
             delete zf (delete bf (<[zf := Archive [(basename bf, Raw data)]]>
                                     (<[zf := Archive []]> (<[bf := Raw data]> (fs w))))) !! q
             = if decide (q = bf) then None else if decide (q = zf) then None else fs w !! q).
  { intros q. destruct (decide (q = zf)) as [->|Hq2].
    - rewrite lookup_delete_eq. destruct (decide (zf = bf)); reflexivity.
    - rewrite lookup_delete_ne by (apply not_eq_sym, Hq2).
      destruct (decide (q = bf)) as [->|Hq1]; [apply lookup_delete_eq|].
      rewrite lookup_delete_ne by (apply not_eq_sym, Hq1).
      rewrite !lookup_insert_ne by (apply not_eq_sym; assumption). reflexivity. }
  split; [apply new_events_app; cbn; rewrite <- app_assoc; reflexivity|].
  split; [rewrite Hfs, decide_True by reflexivity; reflexivity|].
  split; [rewrite Hfs; destruct (decide (zf = bf)); [reflexivity|];
          rewrite decide_True by reflexivity; reflexivity|].
  split; [intros q Hq1 Hq2; rewrite Hfs, !decide_False by assumption; reflexivity|].
  split; [eexists; apply lookup_insert_eq|].
  split; [intros k Hk; apply lookup_insert_ne, not_eq_sym, Hk|].
  intros Hbf Hzf0. apply map_eq. intros q. rewrite Hfs.
  destruct (decide (q = bf)) as [->|]; [symmetry; exact Hbf|].
  destruct (decide (q = zf)) as [->|]; [symmetry; exact Hzf0|reflexivity].
Qed.

Lemma dump_then_upload_witness :
  exists w',
    backup_each cfg0 env_ok ["app"%string] [] w_empty = (Ok [local_archive], w')
    /\ new_events w_empty w'
       = [EvShell (dump_command cfg0 "app" local_dump) true;
          EvUpload local_archive "backups/app_2024-06-15T12:00:00.sql.zip" true]
    /\ fs w' !! local_dump = None
    /\ fs w' !! local_archive = None
    /\ (forall q, q <> local_dump -> q <> local_archive -> fs w' !! q = fs w_empty !! q)
    /\ (exists stamp,
          bucket w' !! "backups/app_2024-06-15T12:00:00.sql.zip"
          = Some (mkentry (Archive [("app_2024-06-15T12:00:00.sql"%string, Raw "-- dump")]) stamp))
    /\ (forall k, k <> "backups/app_2024-06-15T12:00:00.sql.zip"%string ->
          bucket w' !! k = bucket w_empty !! k)
    /\ (fs w_empty !! local_dump = None -> fs w_empty !! local_archive = None ->
        fs w' = fs w_empty).
Proof.
  apply (dump_then_upload cfg0 env_ok "app" w_empty "-- dump"); reflexivity.
Defined.

(** *** The uploads of a whole run *)





(** *** The paths computed when the module is loaded *)

Lemma startswith_slash_app a b :
  startswith "/" a = true -> startswith "/" (a ++ b)%string = true.
Proof. destruct a as [|c a]; [discriminate|]. intros H. exact H. Qed.

Lemma startswith_slash_nonempty a : startswith "/" a = true -> String.eqb a "" = false.
Proof. destruct a; [discriminate|reflexivity]. Qed.

Lemma join2_absolute a b : startswith "/" a = true -> startswith "/" (join2 a b) = true.
Proof.
  intros Ha. unfold join2. rewrite (startswith_slash_nonempty a Ha), orb_false_r.
  destruct (startswith "/" b) eqn:Hb; [exact Hb|].
  destruct (endswith "/" a); apply startswith_slash_app, Ha.
Qed.

Lemma join2_absolute_r a b : startswith "/" b = true -> join2 a b = b.
Proof. intros Hb. unfold join2. rewrite Hb. reflexivity. Qed.

(** X10.  The directory of the script is an absolute path
    ([os.path.realpath]).  Then the dump directory and the path of the
    credentials file computed at load time are absolute, an absolute
    [PATH_TO_SQL_DUMPS] of the environment replaces the directory of the
    script, and joining the directory of the script a second time in the
    dumper changes nothing: the dump file is the dump directory joined
    with [<db>_<now>.sql].  For a database name without slash the dump
    file lies directly in the dump directory and that name is its base
    name. *)
Theorem dump_paths_absolute cfg db now :
  let name := (db ++ "_" ++ strftime now ++ ".sql")%string in
  let dumps_dir := PATH_TO_SQL_DUMPS cfg in
  startswith "/" (script_dir cfg) = true ->
  startswith "/" dumps_dir = true
  /\ startswith "/" (MYSQL_CNF_PATH cfg) = true
  /\ (startswith "/" (env_PATH_TO_SQL_DUMPS cfg) = true ->
      dumps_dir = env_PATH_TO_SQL_DUMPS cfg)
  /\ backup_file_path cfg db now = join2 dumps_dir name
  /\ (contains "/" db = false ->
      backup_file_path cfg db now
      = (dumps_dir ++ (if endswith "/" dumps_dir then "" else "/") ++ name)%string
      /\ basename (backup_file_path cfg db now) = name).
Proof.
  intros name dumps_dir Hs.
  assert (Hd : startswith "/" dumps_dir = true) by apply join2_absolute, Hs.
  assert (Hb : backup_file_path cfg db now = join2 dumps_dir name).
  { unfold backup_file_path, join. cbn [fold_left]. fold dumps_dir. fold name.
    rewrite (join2_absolute_r (script_dir cfg) dumps_dir Hd). reflexivity. }
  split; [exact Hd|].
  split; [apply join2_absolute, Hs|].
  split; [intros Ha; apply join2_absolute_r, Ha|].
  split; [exact Hb|].
  intros Hdb.
  assert (Hn : contains "/" name = false).
  { unfold name. rewrite !contains_app, Hdb.
    rewrite (all_chars_contains _ _ _ (strftime_chars now)) by reflexivity.
    reflexivity. }
  rewrite Hb. unfold join2.
  rewrite (startswith_slash_contains name Hn), (startswith_slash_nonempty dumps_dir Hd).
  cbn [orb]. destruct (endswith "/" dumps_dir) eqn:He.
  - split; [reflexivity|]. apply basename_dir_app; [|exact Hn].
    right. apply endswith_split, He.
  - split; [reflexivity|]. rewrite <- append_assoc.
    apply basename_dir_app; [|exact Hn]. right. eexists. reflexivity.
Qed.

Lemma dump_paths_absolute_witness :
  startswith "/" (PATH_TO_SQL_DUMPS cfg0) = true
  /\ startswith "/" (MYSQL_CNF_PATH cfg0) = true
  /\ (startswith "/" (env_PATH_TO_SQL_DUMPS cfg0) = true ->
      PATH_TO_SQL_DUMPS cfg0 = env_PATH_TO_SQL_DUMPS cfg0)
  /\ backup_file_path cfg0 "app" noon
     = join2 (PATH_TO_SQL_DUMPS cfg0) "app_2024-06-15T12:00:00.sql"
  /\ (contains "/" "app" = false ->
      backup_file_path cfg0 "app" noon
      = (PATH_TO_SQL_DUMPS cfg0
         ++ (if endswith "/" (PATH_TO_SQL_DUMPS cfg0) then "" else "/")
         ++ "app_2024-06-15T12:00:00.sql")%string
      /\ basename (backup_file_path cfg0 "app" noon) = "app_2024-06-15T12:00:00.sql"%string).
Proof. apply (dump_paths_absolute cfg0 "app" noon). reflexivity. Defined.

(** *** What a pruning call writes to the log *)

